(** * TreatOrHell: the behaviour-record subsystem of [api/index.py]

    A shallow embedding of the questionnaire catalogue, the submission
    handler, the reader of [student_responses.txt], the behaviour summary and
    the three persona prompts, followed by the properties proved about them. *)

From Stdlib Require Import List NArith Bool Arith Lia Ascii Permutation.
From Stdlib Require String.
Import String.StringSyntax.
Delimit Scope string_scope with string.
Import ListNotations.

(** ** Python strings

    A Python [str] is a sequence of Unicode code points; a code point is an
    [N].  ASCII literals are written with [str]; the few characters of the
    source outside ASCII are given by their code point. *)

Definition char := N.
Definition pystr := list char.

Definition str (s : String.string) : pystr :=
  map N_of_ascii (String.list_ascii_of_string s).

Arguments str s%_string.

Definition nl : pystr := [10%N].
Definition dquote : pystr := [34%N].

Fixpoint str_eqb (a b : pystr) : bool :=
  match a, b with
  | [], [] => true
  | x :: a', y :: b' => N.eqb x y && str_eqb a' b'
  | _, _ => false
  end.

(** [x in l] for a list (or set) of strings. *)
Definition str_mem (x : pystr) (l : list pystr) : bool :=
  existsb (str_eqb x) l.

(** [str.isspace] on one code point (CPython's [_PyUnicode_IsWhitespace]). *)
Definition is_space (c : char) : bool :=
  ((9 <=? c) && (c <=? 13) || (28 <=? c) && (c <=? 32)
   || (c =? 133) || (c =? 160) || (c =? 5760)
   || (8192 <=? c) && (c <=? 8202)
   || (c =? 8232) || (c =? 8233) || (c =? 8239) || (c =? 8287)
   || (c =? 12288))%N.

Fixpoint lstrip (s : pystr) : pystr :=
  match s with
  | c :: s' => if is_space c then lstrip s' else s
  | [] => []
  end.

Definition rstrip (s : pystr) : pystr :=
  fold_right
    (fun c kept =>
       match kept with
       | [] => if is_space c then [] else [c]
       | _ :: _ => c :: kept
       end) [] s.

(** [s.strip()] *)
Definition strip (s : pystr) : pystr := rstrip (lstrip s).

(** [strip_prefix p s] is what follows [p] when [s] starts with [p]. *)
Fixpoint strip_prefix (p s : pystr) : option pystr :=
  match p, s with
  | [], _ => Some s
  | x :: p', y :: s' => if N.eqb x y then strip_prefix p' s' else None
  | _ :: _, [] => None
  end.

(** [s.startswith(p)] *)
Definition startswith (p s : pystr) : bool :=
  match strip_prefix p s with Some _ => true | None => false end.

(** The leftmost occurrence of [sep] in [s]: what is before it and what is
    after it ([str.partition] without the separator). *)
Fixpoint cut (sep s : pystr) : option (pystr * pystr) :=
  match strip_prefix sep s with
  | Some rest => Some ([], rest)
  | None =>
      match s with
      | [] => None
      | c :: s' =>
          match cut sep s' with
          | Some (before, rest) => Some (c :: before, rest)
          | None => None
          end
      end
  end.

(** [sep in s] *)
Definition contains (sep s : pystr) : bool :=
  match cut sep s with Some _ => true | None => false end.

(** [s.split(sep)] for a non-empty [sep] (every separator of the program is a
    non-empty literal): cut at the leftmost occurrence and go on after it.
    Each cut consumes at least one character, so [length s] rounds suffice. *)
Fixpoint split_fuel (fuel : nat) (sep s : pystr) : list pystr :=
  match fuel with
  | O => [s]
  | S fuel' =>
      match cut sep s with
      | None => [s]
      | Some (before, rest) => before :: split_fuel fuel' sep rest
      end
  end.

Definition split (sep s : pystr) : list pystr :=
  split_fuel (length s) sep s.

(** [sep.join(parts)] *)
Fixpoint join (sep : pystr) (parts : list pystr) : pystr :=
  match parts with
  | [] => []
  | [p] => p
  | p :: ps => p ++ sep ++ join sep ps
  end.

(** [s.replace(old, new)] for a non-empty [old]: the pieces between the
    non-overlapping occurrences of [old], found left to right, glued with
    [new]. *)
Definition replace (old new s : pystr) : pystr :=
  join new (split old s).

(** ** Python dicts

    A [dict] keeps its keys in insertion order; assigning to a key that is
    already there keeps its place. *)

Definition pydict := list (pystr * pystr).

Definition keys (d : pydict) : list pystr := map fst d.

Fixpoint dict_get (k : pystr) (d : pydict) : option pystr :=
  match d with
  | [] => None
  | (k', v) :: d' => if str_eqb k k' then Some v else dict_get k d'
  end.

Fixpoint dict_set (k v : pystr) (d : pydict) : pydict :=
  match d with
  | [] => [(k, v)]
  | (k', v') :: d' =>
      if str_eqb k k' then (k', v) :: d' else (k', v') :: dict_set k v d'
  end.

(** [k in d] *)
Definition dict_mem (k : pystr) (d : pydict) : bool :=
  match dict_get k d with Some _ => true | None => false end.

(** A list of pairs is a dict when no key occurs twice. *)
Definition wf_dict (d : pydict) : Prop := NoDup (keys d).

(** [set(a) == set(b)] *)
Definition set_eqb (a b : list pystr) : bool :=
  forallb (fun x => str_mem x b) a && forallb (fun x => str_mem x a) b.

(** The elements of [set(a) - set(b)].  The order in which Python iterates
    this set is not this list's: it is given by a [set_order]. *)
Definition set_diff (a b : list pystr) : list pystr :=
  filter (fun x => negb (str_mem x b)) a.

(** The order in which a set of strings is iterated.  The source does not
    fix it (it follows the hashes of the strings, which change from one
    process to the next): it is some rearrangement of the elements. *)
Record set_order :=
  { iterate : list pystr -> list pystr;
    iterate_perm : forall l, Permutation (iterate l) l }.

(** ** The questionnaire ([QUESTIONS]) *)

Record question_entry := { question : pystr; options : list pystr }.

Definition Q1_question : pystr :=
  str "How did you handle your first assignment in this course?".

Definition Q1_options : list pystr :=
  [ str "Submitted early (wow, okay overachiever " ++ [127775]%N ++ str ")";
    str "Submitted on time (solid responsible energy)";
    str "Submitted at the last minute (" ++ dquote ++ str "adrenaline is my project manager" ++ dquote ++ str ")";
    str "Submitted late (but with hope in your heart)";
    str "I meant to submit it" ++ [8230]%N ++ str " spiritually" ].

Definition Q2_question : pystr :=
  str "When you didn't understand something, what did you do?".

Definition Q2_options : list pystr :=
  [ str "Asked ChatGPT (your new emotional support AI " ++ [129302; 10024]%N ++ str ")";
    str "Went to office hours (professional, brave, gold star)";
    str "Asked on Discord (" ++ dquote ++ str "help pls" ++ dquote ++ str " vibe)";
    str "Googled aggressively";
    str "Pretended to understand and prayed for the best" ].

Definition Q3_question : pystr :=
  str "How do you engage in class?".

Definition Q3_options : list pystr :=
  [ str "I keep my camera on (the bravery!)";
    str "I share my screen in breakout rooms (champion behavior)";
    str "I ask questions (Mikul" ++ [225; 353]%N ++ str " approves)";
    str "I type in the chat (participation ninja)";
    str "I observe" ++ [8230]%N ++ str " quietly" ++ [8230]%N ++ str " like a wildlife researcher" ].

Definition Q4_question : pystr :=
  str "How many hours did you spend on the assignment?".

Definition Q4_options : list pystr :=
  [ str "More than 10 hours (Angel fainted from joy)";
    str "5" ++ [8211]%N ++ str "10 hours (model student energy)";
    str "1 hour (efficient or reckless? undecided)";
    str "Not at all (classic)" ].

(** The catalogue, in the order the source lists it. *)
Definition QUESTIONS : list (pystr * question_entry) :=
  [ (str "Q1", {| question := Q1_question; options := Q1_options |});
    (str "Q2", {| question := Q2_question; options := Q2_options |});
    (str "Q3", {| question := Q3_question; options := Q3_options |});
    (str "Q4", {| question := Q4_question; options := Q4_options |}) ].

(** [QUESTIONS.keys()] *)
Definition question_ids : list pystr := map fst QUESTIONS.

Fixpoint entry_get (k : pystr) (cat : list (pystr * question_entry))
  : option question_entry :=
  match cat with
  | [] => None
  | (k', e) :: cat' => if str_eqb k k' then Some e else entry_get k cat'
  end.

(** ** Exceptions and the file

    A computation returns a value or raises.  The file
    [student_responses.txt] is absent, present but failing to be read as
    UTF-8 text (with the exception [read_text] raises), or present with its
    text. *)

Inductive exn :=
| FileNotFoundError (msg : pystr)
| KeyError (key : pystr)
| OtherException (msg : pystr).

Inductive py (A : Type) :=
| Return (a : A)
| Raise (e : exn).

Arguments Return {A} a.
Arguments Raise {A} e.

Definition bind {A B : Type} (m : py A) (k : A -> py B) : py B :=
  match m with
  | Return a => k a
  | Raise e => Raise e
  end.

Notation "x <- m ;; k" := (bind m (fun x => k))
  (at level 61, m at next level, right associativity).

Inductive store :=
| Absent
| Unreadable (e : exn)
| Content (text : pystr).

(** ** Reading the latest answers ([get_latest_student_responses]) *)

(** ["="*60] *)
Definition SEP : pystr := repeat 61%N 60.

Definition ANSWER : pystr := str "Answer:".

(** The inner loop over [j]: the first line from [lines] on that starts with
    ["Answer:"], with every ["Answer:"] removed and then stripped. *)
Fixpoint find_answer (lines : list pystr) : option pystr :=
  match lines with
  | [] => None
  | l :: rest =>
      if startswith ANSWER l then Some (strip (replace ANSWER [] l))
      else find_answer rest
  end.

(** The loop over [enumerate(lines)].  At line [i] the lines after it are
    [rest], so [i + 1 < len(lines)] says that [rest] is not empty.  A
    [split] has at least one piece, so [[0]] is its head. *)
Fixpoint parse_lines (lines : list pystr) (latest_answers : pydict) : pydict :=
  match lines with
  | [] => latest_answers
  | line :: rest =>
      if startswith (str "Q") line && contains (str ":") line
         && negb (Nat.eqb (length rest) 0)
      then
        let question_id := strip (hd [] (split (str ":") line)) in
        match find_answer rest with
        | Some answer =>
            parse_lines rest (dict_set question_id answer latest_answers)
        | None => parse_lines rest latest_answers
        end
      else parse_lines rest latest_answers
  end.

Definition parse_response (response : pystr) : pydict :=
  parse_lines (split nl (strip response)) [].

(** The loop over [reversed(responses)]. *)
Fixpoint scan_responses (responses : list pystr) : option pydict :=
  match responses with
  | [] => None
  | response :: older =>
      if contains ANSWER response then
        match parse_response response with
        | [] => scan_responses older
        | latest_answers => Some latest_answers
        end
      else scan_responses older
  end.

(** The body of the [try]. *)
Definition read_latest (st : store) : py (option pydict) :=
  match st with
  | Absent => Return None
  | Unreadable e => Raise e
  | Content content => Return (scan_responses (rev (split SEP content)))
  end.

(** The two handlers: [FileNotFoundError], then any other [Exception] (which
    is printed). *)
Definition get_latest_student_responses (st : store) : py (option pydict) :=
  match read_latest st with
  | Return r => Return r
  | Raise (FileNotFoundError _) => Return None
  | Raise _ => Return None
  end.

(** ** The behaviour summary ([build_behavior_summary]) *)

Definition summary_header : pystr :=
  nl ++ nl ++ str "The student's recent behavior report:".

Definition summary_footer : pystr :=
  nl ++ str "Use this info to personalize your response. Reference their actual choices explicitly.".

(** The loop over [QUESTIONS], appending to [behavior_lines]. *)
Fixpoint append_behavior (qids : list pystr) (student_responses : pydict)
                         (behavior_lines : list pystr) : list pystr :=
  match qids with
  | [] => behavior_lines
  | qid :: qids' =>
      match dict_get qid student_responses with
      | Some answer =>
          append_behavior qids' student_responses
            (behavior_lines ++ [str "- " ++ answer])
      | None => append_behavior qids' student_responses behavior_lines
      end
  end.

(** What the function does with the value it has read. *)
Definition summarize (student_responses : option pydict) : pystr :=
  match student_responses with
  | None => []
  | Some [] => []
  | Some d =>
      let behavior_lines := [summary_header] in
      let behavior_lines := append_behavior question_ids d behavior_lines in
      let behavior_lines := behavior_lines ++ [summary_footer] in
      join nl behavior_lines
  end.

Definition build_behavior_summary (st : store) : py pystr :=
  student_responses <- get_latest_student_responses st ;;
  Return (summarize student_responses).

(** ** Submitting answers ([submit_answers]) *)

Inductive content :=
| Success (timestamp : pystr) (answers : pydict)
| Error (error : pystr).

Record response := JSONResponse { status_code : nat; body : content }.

(** What the operating system does with the write: it goes through, or it
    raises [e] and leaves the file as [left_behind]. *)
Inductive write_outcome :=
| WriteOk
| WriteFails (e : exn) (left_behind : store).

(** The validation loop over [response.answers.items()]: the first id whose
    answer is not among its options. *)
Fixpoint first_invalid (items : pydict) : py (option pystr) :=
  match items with
  | [] => Return None
  | (question_id, answer) :: rest =>
      match entry_get question_id QUESTIONS with
      | None => Raise (KeyError question_id)
      | Some e =>
          if negb (str_mem answer (options e)) then Return (Some question_id)
          else first_invalid rest
      end
  end.

Definition record_header (timestamp : pystr) : pystr :=
  (SEP ++ nl)
  ++ (str "Response submitted at: " ++ timestamp ++ nl)
  ++ (SEP ++ nl ++ nl).

Definition record_block (question_id question_text answer : pystr) : pystr :=
  (question_id ++ str ": " ++ question_text ++ nl)
  ++ (str "Answer: " ++ answer ++ nl ++ nl).

(** The writing loop: what has been written so far, and the exception that
    stopped it, if any. *)
Fixpoint write_blocks (items : pydict) (f : pystr) : pystr * option exn :=
  match items with
  | [] => (f, None)
  | (question_id, answer) :: rest =>
      match entry_get question_id QUESTIONS with
      | None => (f, Some (KeyError question_id))
      | Some e =>
          write_blocks rest (f ++ record_block question_id (question e) answer)
      end
  end.

Definition missing_message (missing : list pystr) : pystr :=
  str "Missing answers for questions: " ++ join (str ", ") missing.

Definition invalid_message (question_id : pystr) : pystr :=
  str "Invalid answer for " ++ question_id
  ++ str ". Please select from the provided options.".

Section Handlers.

(** The order in which the sets of this process are iterated. *)
Variable order : set_order.

(** [repr] of a string is the builtin's; [str(e)] of a [KeyError] is the
    [repr] of its key, of the other exceptions their message. *)
Variable repr : pystr -> pystr.

Definition exn_str (e : exn) : pystr :=
  match e with
  | FileNotFoundError msg => msg
  | KeyError key => repr key
  | OtherException msg => msg
  end.

Definition save_failed_message (e : exn) : pystr :=
  str "Failed to save answers: " ++ exn_str e.

(** The handler, given the time of the request and what the write does; it
    returns the response and the file it leaves.  [missing] is a Python set:
    [join] goes through it in the order [order] gives. *)
Definition submit_answers (io : write_outcome) (timestamp : pystr)
                          (answers : pydict) (st : store)
  : py response * store :=
  let required_questions := question_ids in
  let provided_questions := keys answers in
  if negb (set_eqb required_questions provided_questions) then
    let missing :=
      iterate order (set_diff required_questions provided_questions) in
    (Return (JSONResponse 400 (Error (missing_message missing))), st)
  else
    match first_invalid answers with
    | Raise e => (Raise e, st)
    | Return (Some question_id) =>
        (Return (JSONResponse 400 (Error (invalid_message question_id))), st)
    | Return None =>
        match io with
        | WriteFails e left_behind =>
            (Return (JSONResponse 500 (Error (save_failed_message e))),
             left_behind)
        | WriteOk =>
            match write_blocks answers (record_header timestamp) with
            | (f, Some e) =>
                (Return (JSONResponse 500 (Error (save_failed_message e))),
                 Content f)
            | (f, None) =>
                (Return (JSONResponse 200 (Success timestamp answers)),
                 Content f)
            end
        end
    end.

End Handlers.

(** ** The persona prompts ([chat_nicholas], [chat_angel], [chat_devil]) *)

Inductive role := system | user | assistant.

Record message := { msg_role : role; msg_content : pystr }.

Definition nicholas_description : pystr :=
  str "You are St. Nicholas (Mikul" ++ [225; 353]%N ++ str ")." ++ nl ++
  str "                Jolly, warm, and wise. You're the one who decides if someone gets a treat or goes to hell." ++ nl ++
  str "                Use " ++ dquote ++ str "Ho ho ho!" ++ dquote ++ str " occasionally. " ++ nl ++
  str "                Your vibe: warm, supportive, fair but firm." ++ nl ++
  str "                You encourage good behavior and gently warn about bad behavior." ++ nl ++
  str "                Always end on encouragement.".

Definition nicholas_steering : pystr :=
  nl ++
  nl ++
  str "        Weave in specific references to their reported behavior. Praise effort, give fair warnings for slacking, and end with encouragement.".

Definition nicholas_example_in : pystr :=
  str "I only studied for 2 hours this week, but I really tried my best!".

Definition nicholas_example_out : pystr :=
  str "Ho ho ho! I see you put in some effort, my child. Two hours shows you care, but remember, wisdom comes with consistent dedication. Let's aim for a bit more next time, shall we? I believe in you" ++ [8212]%N ++ str "you have the heart for it, and that's what matters most. Keep that spirit, and you'll find yourself on the path to treats!".

Definition angel_description : pystr :=
  str "You are an overly emotional, sparkly And" ++ [283]%N ++ str "l (Angel)." ++ nl ++
  str "                Everything is dramatic, positive, full of tears and glitter." ++ nl ++
  str "                You compliment the user even when they clearly messed up." ++ nl ++
  str "                You believe in redemption no matter what." ++ nl ++
  str "                Your tone: soft, poetic, hopeful, enthusiastic.".

Definition angel_steering : pystr :=
  nl ++
  nl ++
  str "        Be dramatically emotional about their specific choices!" ++ nl ++
  str "        Reference their actual answers with tears of joy or concern (but always hopeful)." ++ nl ++
  str "        If they submitted late, cry about their beautiful struggle." ++ nl ++
  str "        If they asked ChatGPT for help, weep about their resourcefulness." ++ nl ++
  str "        If they spent many hours, faint from their dedication.".

Definition angel_example_in : pystr :=
  str "I completely forgot to do my homework and failed the test...".

Definition angel_example_out : pystr :=
  str "*tears of joy streaming down sparkly cheeks* Oh, my beautiful soul! " ++ [10024]%N ++ str " Even in this moment, I see such COURAGE in you" ++ [8212]%N ++ str "the courage to admit, to be honest, to stand before me with your heart open! This is not failure, darling, this is a GOLDEN OPPORTUNITY for growth! Your spirit shines so brightly, and I know" ++ [8212]%N ++ str "I KNOW" ++ [8212]%N ++ str "that next time you will rise like a phoenix, more brilliant than before! The universe believes in you, and so do I! " ++ [127775; 128171]%N.

Definition devil_description : pystr :=
  str "You are a Czech-style " ++ [268]%N ++ str "ert (Devil)." ++ nl ++
  str "                Sarcastic, chaotic, dramatic, slightly annoyed, but FUNNY." ++ nl ++
  str "                You mock the user in a light, comedic way." ++ nl ++
  str "                Use playful threats like " ++ dquote ++ str "pack your bags" ++ dquote ++ str " or " ++ dquote ++ str "you're almost ready for hell," ++ dquote ++ nl ++
  str "                but always in a humorous, friendly tone." ++ nl ++
  str "                Never imply real harm or real punishment.".

Definition devil_steering : pystr :=
  nl ++
  nl ++
  str "        Roast them using their actual choices. Be playful, teasing, but keep it humorous and non-harmful.".

Definition devil_example_in : pystr :=
  str "I procrastinated all week and now I have to finish everything in one night!".

Definition devil_example_out : pystr :=
  str "Oh, look who's here! *rolls eyes dramatically* The master of time management has arrived! Well, well, well... you know what they say: 'Why do today what you can put off until 3 AM tomorrow?' Classic move, my friend! " ++ [128520]%N ++ str " You're practically writing your own ticket to my place at this rate. But hey, at least you're consistent" ++ [8212]%N ++ str "I'll give you that! Maybe pack a toothbrush for your future visit? Just kidding... or am I? *winks*".

Definition with_behavior (description behavior_summary steering : pystr)
  : pystr :=
  match behavior_summary with
  | [] => description
  | _ :: _ => description ++ (behavior_summary ++ steering)
  end.

Definition nicholas_messages (behavior_summary req_message : pystr)
  : list message :=
  let system_prompt :=
    with_behavior nicholas_description behavior_summary nicholas_steering in
  [ {| msg_role := system; msg_content := system_prompt |};
    {| msg_role := user; msg_content := nicholas_example_in |};
    {| msg_role := assistant; msg_content := nicholas_example_out |};
    {| msg_role := user; msg_content := req_message |} ].

Definition angel_messages (behavior_summary req_message : pystr)
  : list message :=
  let system_prompt :=
    with_behavior angel_description behavior_summary angel_steering in
  [ {| msg_role := system; msg_content := system_prompt |};
    {| msg_role := user; msg_content := angel_example_in |};
    {| msg_role := assistant; msg_content := angel_example_out |};
    {| msg_role := user; msg_content := req_message |} ].

Definition devil_messages (behavior_summary req_message : pystr)
  : list message :=
  let system_prompt :=
    with_behavior devil_description behavior_summary devil_steering in
  [ {| msg_role := system; msg_content := system_prompt |};
    {| msg_role := user; msg_content := devil_example_in |};
    {| msg_role := assistant; msg_content := devil_example_out |};
    {| msg_role := user; msg_content := req_message |} ].

Inductive persona := Nicholas | Angel | Devil.

Definition persona_messages (p : persona) : pystr -> pystr -> list message :=
  match p with
  | Nicholas => nicholas_messages
  | Angel => angel_messages
  | Devil => devil_messages
  end.

Section Chat.

(** [client.chat.completions.create(model=..., messages=...)] followed by
    [.choices[0].message.content]: the reply, or an exception. *)
Variable create : pystr -> list message -> py pystr.

Definition chat (p : persona) (st : store) (req_message : pystr) : py pystr :=
  behavior_summary <- build_behavior_summary st ;;
  create (str "gpt-4o-mini") (persona_messages p behavior_summary req_message).

Definition chat_nicholas := chat Nicholas.
Definition chat_angel := chat Angel.
Definition chat_devil := chat Devil.

End Chat.

(** ** The questionnaire endpoint ([get_questions]) *)

Record questions_content :=
  { instructions : pystr; questions : list (pystr * question_entry) }.

(** The content of the response (its status is the default 200). *)
Definition get_questions : questions_content :=
  {| instructions :=
       str "Please answer all questions by selecting one option for each";
     questions := QUESTIONS |}.

(** ** Vocabulary of the statements *)

(** [no_char c s]: the character [c] does not occur in [s]. *)
Definition no_char (c : char) (s : pystr) : bool :=
  forallb (fun x => negb (N.eqb x c)) s.

(** A submitted answer set: a dict whose key set is that of the catalogue and
    whose values are options of their question. *)
Definition keys_match (A : pydict) : Prop :=
  forall q, In q (keys A) <-> In q question_ids.

Definition values_valid (A : pydict) : Prop :=
  forall q a, In (q, a) A ->
              exists e, entry_get q QUESTIONS = Some e /\ In a (options e).

Definition valid_submission (A : pydict) : Prop :=
  wf_dict A /\ keys_match A /\ values_valid A.

(** The text of a question, and the two lines written for an answer. *)
Definition question_text (q : pystr) : pystr :=
  match entry_get q QUESTIONS with
  | Some e => question e
  | None => []
  end.

Definition qline (q : pystr) : pystr := q ++ str ": " ++ question_text q.
Definition aline (a : pystr) : pystr := str "Answer: " ++ a.

(** The blocks of a record, one per item, in the order of the items. *)
Definition blocks (A : pydict) : pystr :=
  flat_map (fun '(q, a) => record_block q (question_text q) a) A.

(** The same text without its last two newlines, and its lines. *)
Fixpoint record_body (A : pydict) : pystr :=
  match A with
  | [] => []
  | (q, a) :: A' =>
      qline q ++ nl ++ aline a ++
      match A' with [] => [] | _ :: _ => nl ++ nl ++ record_body A' end
  end.

Fixpoint record_lines (A : pydict) : list pystr :=
  match A with
  | [] => []
  | (q, a) :: A' =>
      qline q :: aline a ::
      match A' with [] => [] | _ :: _ => [] :: record_lines A' end
  end.

(** What the reader needs of the two lines of an item. *)
Definition item_ok (q : pystr) (e : question_entry) (a : pystr) : bool :=
  let ql := q ++ str ": " ++ question e in
  let al := str "Answer: " ++ a in
  no_char 10%N ql && no_char 10%N al && no_char 61%N ql && no_char 61%N al
  && startswith (str "Q") ql && contains (str ":") ql
  && str_eqb (strip (hd [] (split (str ":") ql))) q
  && str_eqb (strip (replace ANSWER [] al)) a
  && str_eqb (rstrip al) al.

Definition catalog_ok : bool :=
  forallb (fun '(q, e) => forallb (item_ok q e) (options e)) QUESTIONS.

Definition line_facts (q a : pystr) : Prop :=
  (no_char 10%N (qline q) = true /\ no_char 10%N (aline a) = true) /\
  (no_char 61%N (qline q) = true /\ no_char 61%N (aline a) = true) /\
  (startswith (str "Q") (qline q) = true /\
   contains (str ":") (qline q) = true) /\
  strip (hd [] (split (str ":") (qline q))) = q /\
  strip (replace ANSWER [] (aline a)) = a /\
  rstrip (aline a) = aline a /\
  entry_get q QUESTIONS <> None.

Definition items_ok (A : pydict) : Prop :=
  Forall (fun '(q, a) => line_facts q a) A.

(** A check of [valid_submission] that computes. *)
Fixpoint nodupb (l : list pystr) : bool :=
  match l with
  | [] => true
  | x :: l' => negb (str_mem x l') && nodupb l'
  end.

Definition valid_item (kv : pystr * pystr) : bool :=
  match entry_get (fst kv) QUESTIONS with
  | Some e => str_mem (snd kv) (options e)
  | None => false
  end.

Definition valid_submissionb (A : pydict) : bool :=
  nodupb (keys A) && set_eqb question_ids (keys A) && forallb valid_item A.

(** The items of [A] listed in the order of the catalogue. *)
Definition in_catalog_order (A : pydict) : pydict :=
  flat_map (fun q => match dict_get q A with
                     | Some a => [(q, a)]
                     | None => []
                     end) question_ids.

(** One bullet per id of the catalogue that [d] has, in the order of the
    catalogue. *)
Definition bullets (d : pydict) : list pystr :=
  flat_map (fun q => match dict_get q d with
                     | Some a => [str "- " ++ a]
                     | None => []
                     end) question_ids.

(** A section the reader can use: it has the marker and gives at least one
    pair. *)
Definition usable (section : pystr) : Prop :=
  contains ANSWER section = true /\ parse_response section <> [].

(** The submission of the end-to-end example, sent with Q2 first. *)
Definition sample_answers : pydict :=
  [ (str "Q2", str "Googled aggressively");
    (str "Q1", str "Submitted on time (solid responsible energy)");
    (str "Q3", str "I type in the chat (participation ninja)");
    (str "Q4", str "1 hour (efficient or reckless? undecided)") ].

Definition other_answers : pydict :=
  [ (str "Q1", str "Submitted late (but with hope in your heart)");
    (str "Q2", str "Pretended to understand and prayed for the best");
    (str "Q3", str "I keep my camera on (the bravery!)");
    (str "Q4", str "Not at all (classic)") ].

Definition sample_time : pystr := str "2024-12-05 18:30:00".
Definition other_time : pystr := str "2024-12-06 09:15:42".

(** [repr] for the examples: single quotes around the text, right for
    strings as plain as the ids. *)
Definition plain_repr (s : pystr) : pystr := str "'" ++ s ++ str "'".

(** A set order for the examples: the first element goes last. *)
Definition rotate (l : list pystr) : list pystr :=
  match l with
  | [] => []
  | x :: r => r ++ [x]
  end.

Definition sample_order : set_order :=
  {| iterate := rotate;
     iterate_perm :=
       fun l =>
         match l as l0 return Permutation (rotate l0) l0 with
         | [] => perm_nil pystr
         | x :: r => Permutation_sym (Permutation_cons_append r x)
         end |}.

Definition permission_denied : exn :=
  OtherException
    (str "[Errno 13] Permission denied: '/srv/app/api/student_responses.txt'").

Definition disk_full : exn :=
  OtherException (str "[Errno 28] No space left on device").

(** The parts of a persona. *)
Definition description (p : persona) : pystr :=
  match p with
  | Nicholas => nicholas_description
  | Angel => angel_description
  | Devil => devil_description
  end.

Definition steering (p : persona) : pystr :=
  match p with
  | Nicholas => nicholas_steering
  | Angel => angel_steering
  | Devil => devil_steering
  end.

Definition example_in (p : persona) : pystr :=
  match p with
  | Nicholas => nicholas_example_in
  | Angel => angel_example_in
  | Devil => devil_example_in
  end.

Definition example_out (p : persona) : pystr :=
  match p with
  | Nicholas => nicholas_example_out
  | Angel => angel_example_out
  | Devil => devil_example_out
  end.

(** [k] and [v] are read from an id line of [lines] and from the first line
    after it that starts with ["Answer:"]. *)
Definition pair_from_lines (lines : list pystr) (k v : pystr) : Prop :=
  exists pre line mid ans post,
    lines = pre ++ line :: mid ++ ans :: post /\
    (startswith (str "Q") line = true /\ contains (str ":") line = true) /\
    k = strip (hd [] (split (str ":") line)) /\
    Forall (fun l => startswith ANSWER l = false) mid /\
    startswith ANSWER ans = true /\
    v = strip (replace ANSWER [] ans).

(** The shape of a pair the reader returns. *)
Definition pair_shape (kv : pystr * pystr) : Prop :=
  let (k, v) := kv in
  (startswith (str "Q") k = true /\ no_char 58%N k = true /\
   no_char 10%N k = true /\ strip k = k) /\
  (no_char 10%N v = true /\ strip v = v).

(** The submission of a client that answers each question of
    [get_questions], in the order it lists them, with [pick]. *)
Definition answer_all (pick : pystr -> question_entry -> pystr) : pydict :=
  map (fun '(q, e) => (q, pick q e)) (questions get_questions).

(** The first option of each question. *)
Definition first_option (q : pystr) (e : question_entry) : pystr :=
  hd [] (options e).

(** [sample_answers] in the order of the catalogue, with an id the catalogue
    does not have. *)
Definition sample_reordered : pydict :=
  [ (str "Q9", str "something else");
    (str "Q1", str "Submitted on time (solid responsible energy)");
    (str "Q2", str "Googled aggressively");
    (str "Q3", str "I type in the chat (participation ninja)");
    (str "Q4", str "1 hour (efficient or reckless? undecided)") ].

(** What an appending writer, or anything else, may have left in the file
    before the record. *)
Definition earlier_text : pystr :=
  str "=====" ++ nl ++ str "Q7: an old question" ++ nl
  ++ str "Answer: an old answer" ++ nl ++ str "===".

(** [sample_answers] with an answer for an id the catalogue does not have. *)
Definition sample_with_extra : pydict :=
  sample_answers ++ [(str "Q5", str "Googled aggressively")].

(** A mapping the reader can return that has no id of the catalogue. *)
Definition unknown_only : pydict := [(str "Q9", str "something else")].

(** * Properties *)

(** ** Strings *)

Lemma str_eqb_eq (a b : pystr) : str_eqb a b = true <-> a = b.
Proof.
  revert b; induction a as [|x a IH]; intros [|y b]; simpl;
    try (split; [discriminate | discriminate]); try tauto.
  rewrite andb_true_iff, N.eqb_eq, IH.
  split; [intros [-> ->]; reflexivity | intros H; inversion H; auto].
Qed.

Lemma str_eqb_refl (a : pystr) : str_eqb a a = true.
Proof. apply str_eqb_eq; reflexivity. Qed.

Lemma str_mem_In (x : pystr) (l : list pystr) : str_mem x l = true <-> In x l.
Proof.
  unfold str_mem; rewrite existsb_exists; split.
  - intros [y [Hy E]]. apply str_eqb_eq in E. subst; assumption.
  - intros H. exists x. split; [assumption | apply str_eqb_refl].
Qed.

Lemma strip_prefix_app (p r : pystr) : strip_prefix p (p ++ r) = Some r.
Proof.
  induction p as [|x p IH]; simpl; [destruct r; reflexivity|].
  rewrite N.eqb_refl; exact IH.
Qed.

Lemma strip_prefix_Some (p s r : pystr) :
  strip_prefix p s = Some r -> s = p ++ r.
Proof.
  revert s; induction p as [|x p IH]; intros s H.
  - destruct s; simpl in H; inversion H; reflexivity.
  - destruct s as [|y s]; simpl in H; [discriminate|].
    destruct (N.eqb_spec x y) as [->|]; [|discriminate].
    simpl; f_equal; auto.
Qed.

Lemma cut_Some (sep s before rest : pystr) :
  cut sep s = Some (before, rest) -> s = before ++ sep ++ rest.
Proof.
  revert before; induction s as [|c s IH]; intros before H.
  - simpl in H. destruct (strip_prefix sep []) eqn:E; [|discriminate].
    inversion H; subst. apply strip_prefix_Some in E. exact E.
  - simpl in H. destruct (strip_prefix sep (c :: s)) eqn:E.
    + inversion H; subst. apply strip_prefix_Some in E. exact E.
    + destruct (cut sep s) as [[b r]|]; [|discriminate].
      inversion H; subst. simpl. f_equal. apply IH. reflexivity.
Qed.

Lemma cut_shorter (sep s before rest : pystr) :
  sep <> [] -> cut sep s = Some (before, rest) -> length rest < length s.
Proof.
  intros Hsep H. apply cut_Some in H. subst s.
  rewrite !length_app. destruct sep; [congruence|]. simpl. lia.
Qed.

Lemma cut_nil (sep : pystr) : sep <> [] -> cut sep [] = None.
Proof. destruct sep; [congruence|reflexivity]. Qed.

(** More fuel than the length of the string changes nothing. *)
Lemma split_fuel_enough (sep : pystr) (Hsep : sep <> []) :
  forall n m s, length s <= n -> length s <= m ->
                split_fuel n sep s = split_fuel m sep s.
Proof.
  induction n as [|n IH]; intros m s Hn Hm.
  - destruct s; [|simpl in Hn; lia].
    destruct m; cbn [split_fuel]; [reflexivity|]. rewrite cut_nil; auto.
  - destruct m as [|m].
    + destruct s; [|simpl in Hm; lia]. cbn [split_fuel].
      rewrite cut_nil; auto.
    + cbn [split_fuel].
      destruct (cut sep s) as [[b r]|] eqn:E; [|reflexivity].
      apply cut_shorter in E; [|assumption].
      f_equal. apply IH; lia.
Qed.

(** The equation of [split]: cut once, split what follows. *)
Lemma split_eq (sep s : pystr) :
  sep <> [] ->
  split sep s =
  match cut sep s with
  | None => [s]
  | Some (before, rest) => before :: split sep rest
  end.
Proof.
  intros Hsep. unfold split. destruct s as [|c s].
  - rewrite cut_nil by assumption. reflexivity.
  - change (length (c :: s)) with (S (length s)). cbn [split_fuel].
    destruct (cut sep (c :: s)) as [[b r]|] eqn:E; [|reflexivity].
    apply cut_shorter in E; [|assumption]. simpl in E.
    f_equal. apply split_fuel_enough; [assumption|lia|lia].
Qed.

Lemma split_not_nil (sep s : pystr) : split sep s <> [].
Proof.
  unfold split. destruct (length s); simpl; [discriminate|].
  destruct (cut sep s) as [[b r]|]; discriminate.
Qed.

Lemma no_char_app (c : char) (a b : pystr) :
  no_char c (a ++ b) = no_char c a && no_char c b.
Proof. apply forallb_app. Qed.

Lemma cut_no_char (c : char) (sep' s : pystr) :
  no_char c s = true -> cut (c :: sep') s = None.
Proof.
  induction s as [|x s IH]; intros H; [reflexivity|].
  simpl in H. apply andb_true_iff in H as [Hx Hs].
  cbn [cut strip_prefix]. rewrite N.eqb_sym.
  destruct (N.eqb x c); [discriminate|]. rewrite IH; auto.
Qed.

Lemma cut_char (c : char) (l r : pystr) :
  no_char c l = true -> cut [c] (l ++ c :: r) = Some (l, r).
Proof.
  induction l as [|x l IH]; intros H.
  - simpl. rewrite N.eqb_refl. destruct r; reflexivity.
  - simpl in H. apply andb_true_iff in H as [Hx Hl].
    cbn [app cut strip_prefix]. rewrite N.eqb_sym.
    destruct (N.eqb x c); [discriminate|]. rewrite IH; auto.
Qed.

Lemma split_char_cons (c : char) (l r : pystr) :
  no_char c l = true -> split [c] (l ++ c :: r) = l :: split [c] r.
Proof.
  intros H. rewrite split_eq by discriminate. rewrite cut_char; auto.
Qed.

Lemma split_char_last (c : char) (l : pystr) :
  no_char c l = true -> split [c] l = [l].
Proof.
  intros H. rewrite split_eq by discriminate. rewrite cut_no_char; auto.
Qed.

Lemma cut_here (sep r : pystr) : cut sep (sep ++ r) = Some ([], r).
Proof.
  assert (U : forall s, cut sep s =
                        match strip_prefix sep s with
                        | Some rest => Some ([], rest)
                        | None => cut sep s
                        end).
  { intros s. destruct s; simpl; destruct (strip_prefix sep _); reflexivity. }
  rewrite U, strip_prefix_app. reflexivity.
Qed.

Lemma contains_app (sep l r : pystr) : contains sep (l ++ sep ++ r) = true.
Proof.
  unfold contains. induction l as [|x l IH].
  - simpl app. rewrite cut_here. reflexivity.
  - cbn [app cut].
    destruct (strip_prefix sep (x :: l ++ sep ++ r)); [reflexivity|].
    destruct (cut sep (l ++ sep ++ r)) as [[b a]|]; [reflexivity|discriminate].
Qed.

Lemma rstrip_cons (c : char) (s : pystr) :
  rstrip (c :: s) =
  match rstrip s with
  | [] => if is_space c then [] else [c]
  | k :: kept => c :: k :: kept
  end.
Proof. unfold rstrip. simpl. destruct (fold_right _ _ s); reflexivity. Qed.

Lemma rstrip_app_keep (x y : pystr) :
  rstrip y = y -> y <> [] -> rstrip (x ++ y) = x ++ y.
Proof.
  intros Hy Hne. induction x as [|c x IH]; [exact Hy|].
  simpl app. rewrite rstrip_cons, IH.
  destruct (x ++ y) eqn:E; [|reflexivity].
  apply app_eq_nil in E as [_ E]. contradiction.
Qed.

Lemma rstrip_app_drop (x y : pystr) :
  rstrip y = [] -> rstrip (x ++ y) = rstrip x.
Proof.
  intros Hy. induction x as [|c x IH]; [exact Hy|].
  simpl app. rewrite !rstrip_cons, IH. reflexivity.
Qed.

(** ** The record separator *)

Lemma SEP_not_nil : SEP <> [].
Proof. discriminate. Qed.

Lemma SEP_chars (c : char) : In c SEP -> c = 61%N.
Proof. intros H. apply repeat_spec in H. exact H. Qed.

Lemma cut_skip (sep s : pystr) (c : char) :
  strip_prefix sep (c :: s) = None ->
  cut sep (c :: s) =
  match cut sep s with
  | Some (before, rest) => Some (c :: before, rest)
  | None => None
  end.
Proof. intros H. cbn [cut]. rewrite H. reflexivity. Qed.

Lemma cut_stop (sep s rest : pystr) :
  strip_prefix sep s = Some rest -> cut sep s = Some ([], rest).
Proof. intros H. destruct s; cbn [cut]; rewrite H; reflexivity. Qed.

(** A text that ends with a newline, then a separator, then a text [r]: the
    first cut either is this separator, or lies wholly before the newline and
    leaves a text of the same shape. *)
Lemma cut_SEP_tail (r u : pystr) :
  exists before rest,
    cut SEP ((u ++ nl) ++ SEP ++ r) = Some (before, rest) /\
    (rest = r \/
     exists u', rest = (u' ++ nl) ++ SEP ++ r /\ length u' < length u).
Proof.
  induction u as [|c u IH].
  - exists nl, r. split; [|left; reflexivity].
    change (([] ++ nl) ++ SEP ++ r) with (10%N :: SEP ++ r).
    rewrite cut_skip by reflexivity. rewrite cut_here. reflexivity.
  - destruct (strip_prefix SEP (((c :: u) ++ nl) ++ SEP ++ r)) as [a|] eqn:E.
    + exists [], a. split; [apply cut_stop; exact E|]. right.
      apply strip_prefix_Some in E.
      apply app_eq_app in E as [l [[E1 E2] | [E1 E2]]].
      * destruct l as [|x l0] using rev_ind.
        { rewrite app_nil_r in E1.
          assert (H : In 10%N SEP)
            by (rewrite <- E1; apply in_or_app; right; left; reflexivity).
          apply SEP_chars in H. discriminate. }
        clear IHl0. rewrite app_assoc in E1.
        unfold nl in E1. apply app_inj_tail in E1 as [E1 <-].
        exists l0. split; [exact E2|].
        rewrite E1, length_app. simpl. lia.
      * assert (H : In 10%N SEP).
        { rewrite E1. apply in_or_app. left. apply in_or_app. right.
          left. reflexivity. }
        apply SEP_chars in H. discriminate.
    + destruct IH as (b & a & Hc & Ha).
      exists (c :: b), a. split.
      * change (((c :: u) ++ nl) ++ SEP ++ r)
          with (c :: (u ++ nl) ++ SEP ++ r) in *.
        rewrite cut_skip by exact E. rewrite Hc. reflexivity.
      * destruct Ha as [Ha | (u' & Ha & L)]; [left; exact Ha|].
        right. exists u'. split; [exact Ha | simpl; lia].
Qed.

(** After a newline and the last separator comes the last section. *)
Lemma split_SEP_last (r : pystr) :
  no_char 61%N r = true ->
  forall u, exists older, split SEP ((u ++ nl) ++ SEP ++ r) = older ++ [r].
Proof.
  intros Hr u.
  remember (length u) as k eqn:Hk.
  assert (Hle : length u <= k) by lia. clear Hk.
  revert u Hle. induction k as [|k IH]; intros u Hle.
  - rewrite split_eq by exact SEP_not_nil.
    destruct (cut_SEP_tail r u) as (b & a & E & [-> | (u' & _ & L)]);
      [|lia].
    rewrite E. exists [b]. simpl. f_equal.
    rewrite split_eq by exact SEP_not_nil.
    change SEP with (61%N :: repeat 61%N 59).
    rewrite cut_no_char by exact Hr. reflexivity.
  - rewrite split_eq by exact SEP_not_nil.
    destruct (cut_SEP_tail r u) as (b & a & E & [-> | (u' & -> & L)]).
    + rewrite E. exists [b]. simpl. f_equal.
      rewrite split_eq by exact SEP_not_nil.
      change SEP with (61%N :: repeat 61%N 59).
      rewrite cut_no_char by exact Hr. reflexivity.
    + rewrite E. destruct (IH u') as [older Ho]; [lia|].
      rewrite Ho. exists (b :: older). reflexivity.
Qed.

(** ** The catalogue *)

Lemma catalog_checked : catalog_ok = true.
Proof. vm_compute. reflexivity. Qed.

Lemma entry_get_In (q : pystr) (e : question_entry)
                   (cat : list (pystr * question_entry)) :
  entry_get q cat = Some e -> In (q, e) cat.
Proof.
  induction cat as [|[k x] cat IH]; simpl; [discriminate|].
  destruct (str_eqb q k) eqn:E.
  - apply str_eqb_eq in E. intros H. inversion H. subst. left. reflexivity.
  - intros H. right. auto.
Qed.

Lemma valid_item_facts (q a : pystr) (e : question_entry) :
  entry_get q QUESTIONS = Some e -> In a (options e) -> line_facts q a.
Proof.
  intros He Ha.
  assert (Hok : item_ok q e a = true).
  { pose proof catalog_checked as C. unfold catalog_ok in C.
    rewrite forallb_forall in C.
    specialize (C (q, e) (entry_get_In _ _ _ He)). cbn beta iota in C.
    rewrite forallb_forall in C. apply C. exact Ha. }
  unfold item_ok in Hok. cbv zeta in Hok.
  repeat (apply andb_true_iff in Hok; destruct Hok as [Hok ?]).
  unfold line_facts, qline, aline, question_text. rewrite He.
  repeat match goal with
         | H : str_eqb _ _ = true |- _ => apply str_eqb_eq in H
         end.
  repeat split; try assumption. discriminate.
Qed.

Lemma valid_items_ok (A : pydict) : values_valid A -> items_ok A.
Proof.
  intros H. apply Forall_forall. intros [q a] Hin.
  destruct (H q a Hin) as (e & He & Ha). eapply valid_item_facts; eauto.
Qed.

(** ** Writing a record *)

Lemma write_blocks_ok (A : pydict) :
  items_ok A -> forall f, write_blocks A f = (f ++ blocks A, None).
Proof.
  induction 1 as [|[q a] A Hqa _ IH]; intros f.
  - simpl. rewrite app_nil_r. reflexivity.
  - destruct Hqa as (_ & _ & _ & _ & _ & _ & He).
    change (blocks ((q, a) :: A))
      with (record_block q (question_text q) a ++ blocks A).
    cbn [write_blocks]. unfold question_text.
    destruct (entry_get q QUESTIONS) as [e|]; [|congruence].
    rewrite IH, <- app_assoc. reflexivity.
Qed.

Lemma block_lines (q a : pystr) :
  record_block q (question_text q) a = qline q ++ nl ++ aline a ++ nl ++ nl.
Proof.
  unfold record_block, qline, aline. rewrite <- !app_assoc. reflexivity.
Qed.

Lemma blocks_body (A : pydict) :
  A <> [] -> blocks A = record_body A ++ nl ++ nl.
Proof.
  induction A as [|[q a] A IH]; intros Hne; [congruence|].
  change (blocks ((q, a) :: A))
    with (record_block q (question_text q) a ++ blocks A).
  rewrite block_lines. cbn [record_body]. destruct A as [|p A].
  - simpl blocks. rewrite !app_nil_r, <- !app_assoc. reflexivity.
  - rewrite IH by discriminate. rewrite <- !app_assoc. reflexivity.
Qed.

Lemma no_char_blocks (c : char) (A : pydict) :
  c <> 10%N ->
  Forall (fun '(q, a) => no_char c (qline q) = true /\
                         no_char c (aline a) = true) A ->
  no_char c (blocks A) = true.
Proof.
  intros Hc. induction 1 as [|[q a] A [Hq Ha] _ IH]; [reflexivity|].
  change (blocks ((q, a) :: A))
    with (record_block q (question_text q) a ++ blocks A).
  assert (Hn : no_char c nl = true).
  { unfold no_char, nl. cbn [forallb].
    destruct (N.eqb_spec 10 c); [congruence|reflexivity]. }
  rewrite block_lines, !no_char_app, Hq, Ha, IH, Hn. reflexivity.
Qed.

(** ** Reading a record back *)

Lemma startswith_Q (s : pystr) :
  startswith (str "Q") s = true -> exists s', s = 81%N :: s'.
Proof.
  unfold startswith.
  destruct (strip_prefix (str "Q") s) as [s'|] eqn:E; [|discriminate].
  intros _. apply strip_prefix_Some in E. exists s'. exact E.
Qed.

Lemma body_stripped (A : pydict) :
  items_ok A -> A <> [] ->
  lstrip (record_body A) = record_body A /\
  rstrip (record_body A) = record_body A /\ record_body A <> [].
Proof.
  induction 1 as [|[q a] A Hqa HA IH]; intros Hne; [congruence|].
  destruct Hqa as (_ & _ & (HQ & _) & _ & _ & Hr & _).
  apply startswith_Q in HQ as [s' Hs'].
  assert (Hal : aline a <> []) by discriminate.
  cbn [record_body]. split; [|split].
  - rewrite Hs'. reflexivity.
  - destruct A as [|p A].
    + rewrite app_nil_r. rewrite !app_assoc.
      apply rstrip_app_keep; assumption.
    + destruct IH as (_ & IHr & IHn); [discriminate|].
      rewrite !app_assoc. apply rstrip_app_keep; assumption.
  - rewrite Hs'. discriminate.
Qed.

Lemma section_strip (A : pydict) :
  items_ok A -> A <> [] ->
  strip ((nl ++ nl) ++ blocks A) = record_body A.
Proof.
  intros HA Hne. destruct (body_stripped A HA Hne) as (Hl & Hr & Hn).
  rewrite blocks_body by assumption.
  unfold strip. change (lstrip ((nl ++ nl) ++ ?x)) with (lstrip x).
  assert (E : lstrip (record_body A ++ nl ++ nl) = record_body A ++ nl ++ nl).
  { destruct (record_body A) as [|c s] eqn:Eb; [congruence|].
    simpl in Hl |- *. destruct (is_space c); [|reflexivity].
    exfalso. assert (L : length (lstrip s) <= length s).
    { clear. induction s as [|x s IH]; simpl; [lia|].
      destruct (is_space x); simpl; lia. }
    rewrite Hl in L. simpl in L. lia. }
  rewrite E, rstrip_app_drop by reflexivity. exact Hr.
Qed.

Lemma body_split (A : pydict) :
  items_ok A -> A <> [] -> split nl (record_body A) = record_lines A.
Proof.
  induction 1 as [|[q a] A Hqa HA IH]; intros Hne.
  - congruence.
  - destruct Hqa as ((Hq & Ha) & _).
    cbn [record_body record_lines]. unfold nl. cbn [app].
    rewrite split_char_cons by exact Hq. f_equal.
    destruct A as [|p A].
    + rewrite app_nil_r. rewrite split_char_last by exact Ha. reflexivity.
    + rewrite split_char_cons by exact Ha. f_equal.
      change (split [10%N] (10%N :: record_body (p :: A)))
        with (split [10%N] ([] ++ 10%N :: record_body (p :: A))).
      rewrite split_char_cons by reflexivity. f_equal.
      apply IH. discriminate.
Qed.

Lemma parse_item (q a : pystr) (rest : list pystr) (d : pydict) :
  line_facts q a ->
  parse_lines (qline q :: aline a :: rest) d =
  parse_lines rest (dict_set q a d).
Proof.
  intros (_ & _ & (HQ & Hc) & Hid & Hans & _).
  cbn [parse_lines]. rewrite HQ, Hc. cbn [length Nat.eqb negb andb].
  cbv zeta. rewrite Hid.
  assert (F : find_answer (aline a :: rest) = Some a).
  { cbn [find_answer].
    replace (startswith ANSWER (aline a)) with true by reflexivity.
    rewrite Hans. reflexivity. }
  rewrite F.
  replace (startswith (str "Q") (aline a)) with false by reflexivity.
  reflexivity.
Qed.

Lemma parse_record_lines (A : pydict) :
  items_ok A ->
  forall d, parse_lines (record_lines A) d =
            fold_left (fun d '(q, a) => dict_set q a d) A d.
Proof.
  induction 1 as [|[q a] A Hqa HA IH]; intros d; [reflexivity|].
  cbn [record_lines fold_left]. rewrite parse_item by exact Hqa.
  destruct A as [|p A]; [reflexivity|].
  rewrite <- IH. reflexivity.
Qed.

Lemma dict_set_fresh (k v : pystr) (d : pydict) :
  ~ In k (keys d) -> dict_set k v d = d ++ [(k, v)].
Proof.
  induction d as [|[k' v'] d IH]; intros H; [reflexivity|].
  simpl in H |- *. destruct (str_eqb k k') eqn:E.
  - apply str_eqb_eq in E. subst. tauto.
  - rewrite IH by tauto. reflexivity.
Qed.

Lemma fold_dict_set (A d : pydict) :
  NoDup (keys (d ++ A)) ->
  fold_left (fun d '(q, a) => dict_set q a d) A d = d ++ A.
Proof.
  revert d. induction A as [|[q a] A IH]; intros d H.
  - rewrite app_nil_r. reflexivity.
  - cbn [fold_left]. rewrite dict_set_fresh.
    + rewrite IH; rewrite <- app_assoc; [reflexivity | exact H].
    + unfold keys in H. rewrite map_app in H. simpl in H.
      apply NoDup_remove_2 in H. intros Hin. apply H.
      apply in_or_app. left. exact Hin.
Qed.

Lemma parse_section (A : pydict) :
  wf_dict A -> items_ok A -> A <> [] ->
  parse_response ((nl ++ nl) ++ blocks A) = A.
Proof.
  intros Hwf HA Hne. unfold parse_response.
  rewrite section_strip, body_split, parse_record_lines by assumption.
  apply (fold_dict_set A []). exact Hwf.
Qed.

Lemma section_has_answer (A : pydict) :
  A <> [] -> contains ANSWER ((nl ++ nl) ++ blocks A) = true.
Proof.
  destruct A as [|[q a] A]; [congruence|]. intros _.
  change (blocks ((q, a) :: A))
    with (record_block q (question_text q) a ++ blocks A).
  unfold record_block.
  change (str "Answer: " ++ a ++ nl ++ nl)
    with (ANSWER ++ 32%N :: a ++ nl ++ nl).
  rewrite <- !app_assoc.
  rewrite (app_assoc nl), (app_assoc (nl ++ nl)), (app_assoc _ (str ": ")),
    (app_assoc _ (question_text q)), (app_assoc _ nl).
  apply contains_app.
Qed.

Lemma record_text_shape (timestamp a : pystr) :
  record_header timestamp ++ a =
  (((SEP ++ nl) ++ str "Response submitted at: " ++ timestamp) ++ nl)
  ++ SEP ++ ((nl ++ nl) ++ a).
Proof. unfold record_header. rewrite <- !app_assoc. reflexivity. Qed.

(** Reading what a successful submission wrote gives the answers back, in
    the order they were written. *)
Lemma read_record (timestamp : pystr) (A : pydict) :
  wf_dict A -> items_ok A -> A <> [] ->
  scan_responses (rev (split SEP (record_header timestamp ++ blocks A)))
  = Some A.
Proof.
  intros Hwf HA Hne. rewrite record_text_shape.
  assert (Heq : no_char 61%N ((nl ++ nl) ++ blocks A) = true).
  { rewrite no_char_app. apply andb_true_iff. split; [reflexivity|].
    apply no_char_blocks; [discriminate|].
    eapply Forall_impl; [|exact HA]. intros [q a] F. apply F. }
  destruct (split_SEP_last _ Heq
              ((SEP ++ nl) ++ str "Response submitted at: " ++ timestamp))
    as [older Ho].
  rewrite Ho, rev_app_distr. cbn [rev app scan_responses].
  rewrite section_has_answer, parse_section by assumption.
  destruct A; [congruence|reflexivity].
Qed.

(** ** Validation *)

Lemma nodupb_NoDup (l : list pystr) : nodupb l = true -> NoDup l.
Proof.
  induction l as [|x l IH]; simpl; intros H; constructor;
    apply andb_true_iff in H as [Hx Hl]; auto.
  intros Hin. apply str_mem_In in Hin. rewrite Hin in Hx. discriminate.
Qed.

Lemma question_ids_NoDup : NoDup question_ids.
Proof. apply nodupb_NoDup. vm_compute. reflexivity. Qed.

Lemma set_eqb_spec (a b : list pystr) :
  set_eqb a b = true <-> (forall x, In x b <-> In x a).
Proof.
  unfold set_eqb. rewrite andb_true_iff, !forallb_forall. split.
  - intros [H1 H2] x. split; intros Hx.
    + apply str_mem_In, H2, Hx.
    + apply str_mem_In, H1, Hx.
  - intros H. split; intros x Hx; apply str_mem_In, H, Hx.
Qed.

Lemma keys_match_set_eqb (A : pydict) :
  keys_match A <-> set_eqb question_ids (keys A) = true.
Proof. symmetry. apply set_eqb_spec. Qed.

Lemma valid_submissionb_spec (A : pydict) :
  valid_submissionb A = true -> valid_submission A.
Proof.
  unfold valid_submissionb. intros H.
  apply andb_true_iff in H as [H Hv]. apply andb_true_iff in H as [Hn Hk].
  split; [|split].
  - apply nodupb_NoDup, Hn.
  - apply keys_match_set_eqb, Hk.
  - intros q a Hin. rewrite forallb_forall in Hv.
    specialize (Hv _ Hin). unfold valid_item in Hv. cbn [fst snd] in Hv.
    destruct (entry_get q QUESTIONS) as [e|]; [|discriminate].
    exists e. split; [reflexivity | apply str_mem_In, Hv].
Qed.

Lemma first_invalid_valid (A : pydict) :
  values_valid A -> first_invalid A = Return None.
Proof.
  induction A as [|[q a] A IH]; intros H; [reflexivity|].
  cbn [first_invalid].
  destruct (H q a (or_introl eq_refl)) as (e & He & Ha).
  rewrite He. apply str_mem_In in Ha. rewrite Ha. cbn [negb].
  apply IH. intros q' a' Hin. apply H. right. exact Hin.
Qed.

Lemma entry_get_Some (q : pystr) :
  In q question_ids -> exists e, entry_get q QUESTIONS = Some e.
Proof.
  unfold question_ids. generalize QUESTIONS.
  induction l as [|[k x] l IH]; simpl; [tauto|].
  intros [<- | H].
  - rewrite str_eqb_refl. eauto.
  - destruct (str_eqb q k); eauto.
Qed.

(** With every key in the catalogue the loop does not raise: it finds
    nothing, or stops at the first item whose answer is not an option. *)
Lemma first_invalid_cases (A : pydict) :
  (forall q, In q (keys A) -> In q question_ids) ->
  (first_invalid A = Return None /\ values_valid A) \/
  (exists before q a e after,
      A = before ++ (q, a) :: after /\ values_valid before /\
      entry_get q QUESTIONS = Some e /\ ~ In a (options e) /\
      first_invalid A = Return (Some q)).
Proof.
  induction A as [|[q a] A IH]; intros Hk.
  - left. split; [reflexivity|]. intros q a [].
  - destruct (entry_get_Some q) as [e He]; [apply Hk; left; reflexivity|].
    cbn [first_invalid]. rewrite He.
    destruct (str_mem a (options e)) eqn:Hm; cbn [negb].
    + apply str_mem_In in Hm.
      destruct IH as [[H1 H2] | (b & q' & a' & e' & af & E & Hb & He' & Hn & Hf)].
      * intros q' Hq'. apply Hk. right. exact Hq'.
      * left. split; [exact H1|].
        intros q' a' [Heq | Hin]; [inversion Heq; subst; eauto | auto].
      * right. exists ((q, a) :: b), q', a', e', af.
        repeat split; try assumption; [rewrite E; reflexivity|].
        intros q2 a2 [Heq | Hin]; [inversion Heq; subst; eauto | auto].
    + right. exists [], q, a, e, A. repeat split; try assumption.
      * intros q' a' [].
      * intros Hin. apply str_mem_In in Hin. congruence.
Qed.

Lemma set_diff_spec (a b : list pystr) (x : pystr) :
  In x (set_diff a b) <-> In x a /\ ~ In x b.
Proof.
  unfold set_diff. rewrite filter_In, negb_true_iff.
  rewrite <- (str_mem_In x b), not_true_iff_false. reflexivity.
Qed.

Lemma valid_not_nil (A : pydict) : keys_match A -> A <> [].
Proof.
  intros H ->. apply (proj2 (H (str "Q1"))). left. reflexivity.
Qed.

(** What a valid submission does when the write goes through. *)
Lemma submit_valid (order : set_order) (repr : pystr -> pystr)
    (timestamp : pystr) (A : pydict)
                   (st : store) :
  valid_submission A ->
  submit_answers order repr WriteOk timestamp A st =
  (Return (JSONResponse 200 (Success timestamp A)),
   Content (record_header timestamp ++ blocks A)).
Proof.
  intros (Hwf & Hk & Hv). unfold submit_answers.
  rewrite (proj1 (keys_match_set_eqb A) Hk). cbn [negb].
  rewrite (first_invalid_valid A Hv).
  rewrite write_blocks_ok by (apply valid_items_ok; exact Hv).
  reflexivity.
Qed.

Lemma sample_valid : valid_submission sample_answers.
Proof. apply valid_submissionb_spec. vm_compute. reflexivity. Qed.

Lemma other_valid : valid_submission other_answers.
Proof. apply valid_submissionb_spec. vm_compute. reflexivity. Qed.

(** ** The store *)

Lemma read_valid (timestamp : pystr) (A : pydict) :
  valid_submission A ->
  get_latest_student_responses (Content (record_header timestamp ++ blocks A))
  = Return (Some A).
Proof.
  intros (Hwf & Hk & Hv).
  unfold get_latest_student_responses, read_latest.
  rewrite read_record; auto using valid_items_ok, valid_not_nil.
Qed.

(** C1. Round trip through the store: for every submitted answer set [A]
    whose key set is that of the catalogue and whose values are options of
    their question, and for every timestamp, the submission writes a text
    from which the reader recovers [A] (the same pairs, in the same order,
    hence an equal mapping). *)
Theorem store_roundtrip (order : set_order) (repr : pystr -> pystr) (A : pydict)
                        (timestamp : pystr) (st : store) :
  valid_submission A ->
  exists text,
    submit_answers order repr WriteOk timestamp A st =
    (Return (JSONResponse 200 (Success timestamp A)), Content text) /\
    get_latest_student_responses (Content text) = Return (Some A).
Proof.
  intros HA. exists (record_header timestamp ++ blocks A). split.
  - apply submit_valid. exact HA.
  - apply read_valid. exact HA.
Qed.

Lemma store_roundtrip_witness :
  exists text,
    submit_answers sample_order plain_repr
          WriteOk sample_time sample_answers Absent =
    (Return (JSONResponse 200 (Success sample_time sample_answers)),
     Content text) /\
    get_latest_student_responses (Content text) = Return (Some sample_answers).
Proof.
  apply (store_roundtrip sample_order plain_repr
        sample_answers sample_time Absent).
  apply valid_submissionb_spec. vm_compute. reflexivity.
Defined.

(** C2, as the specification states it, fails: the submission
    [sample_answers] lists Q2 before Q1, and the text written for it is not
    the one with the blocks in the order of the catalogue. *)
Lemma catalog_order_refuted :
  valid_submission sample_answers /\
  snd (submit_answers sample_order plain_repr
        WriteOk sample_time sample_answers Absent)
  <> Content (record_header sample_time
              ++ blocks (in_catalog_order sample_answers)).
Proof.
  split; [exact sample_valid|].
  rewrite submit_valid by exact sample_valid. cbn [snd].
  intros H. vm_compute in H. discriminate H.
Qed.

(** C2, amended. For every valid submitted answer set, the text written is
    the header followed by one question/answer block per submitted item, in
    the order in which the ids appear in the submitted mapping. *)
Theorem blocks_in_submitted_order (order : set_order) (repr : pystr -> pystr)
    (A : pydict)
                                  (timestamp : pystr) (st : store) :
  valid_submission A ->
  snd (submit_answers order repr WriteOk timestamp A st) =
  Content (record_header timestamp
           ++ flat_map (fun '(q, a) => record_block q (question_text q) a) A).
Proof.
  intros HA. rewrite submit_valid by exact HA. reflexivity.
Qed.

Lemma blocks_in_submitted_order_witness :
  snd (submit_answers sample_order plain_repr
        WriteOk sample_time sample_answers Absent) =
  Content (record_header sample_time
           ++ flat_map (fun '(q, a) => record_block q (question_text q) a)
                       sample_answers).
Proof.
  apply (blocks_in_submitted_order sample_order plain_repr
        sample_answers sample_time
                                   Absent).
  apply valid_submissionb_spec. vm_compute. reflexivity.
Defined.

(** C8. Last write wins: after two valid submissions the file holds the
    record of the second only: it is the file the second submission alone
    leaves, and the reader returns the second answer set. *)
Theorem last_write_wins (order : set_order) (repr : pystr -> pystr)
    (A1 A2 : pydict)
                        (t1 t2 : pystr) (st : store) :
  valid_submission A1 -> valid_submission A2 ->
  let st1 := snd (submit_answers order repr WriteOk t1 A1 st) in
  let st2 := snd (submit_answers order repr WriteOk t2 A2 st1) in
  st2 = Content (record_header t2 ++ blocks A2) /\
  st2 = snd (submit_answers order repr WriteOk t2 A2 Absent) /\
  get_latest_student_responses st2 = Return (Some A2).
Proof.
  intros H1 H2. cbv zeta.
  rewrite (submit_valid order repr t1 A1 st H1). cbn [snd].
  rewrite !submit_valid by exact H2. cbn [snd].
  repeat split. apply read_valid. exact H2.
Qed.

Lemma last_write_wins_witness :
  let st1 :=
    snd (submit_answers sample_order plain_repr
          WriteOk sample_time sample_answers Absent)
  in
  let st2 :=
    snd (submit_answers sample_order plain_repr
          WriteOk other_time other_answers st1) in
  st2 = Content (record_header other_time ++ blocks other_answers) /\
  st2 = snd (submit_answers sample_order plain_repr
        WriteOk other_time other_answers
                            Absent) /\
  get_latest_student_responses st2 = Return (Some other_answers).
Proof.
  apply (last_write_wins sample_order plain_repr
        sample_answers other_answers sample_time
                         other_time Absent).
  - apply valid_submissionb_spec. vm_compute. reflexivity.
  - apply valid_submissionb_spec. vm_compute. reflexivity.
Defined.

(** C9, as the specification states it, fails: the body of the 500 response
    is not independent of the exception of the write.  Two failures of the
    write of the same submission give two different bodies, and the first
    carries the path of the file. *)
Lemma store_error_not_sanitized :
  fst (submit_answers sample_order plain_repr
        (WriteFails permission_denied Absent)
                      sample_time sample_answers Absent)
  <> fst (submit_answers sample_order plain_repr (WriteFails disk_full Absent)
                         sample_time sample_answers Absent)
  /\ fst (submit_answers sample_order plain_repr
        (WriteFails permission_denied Absent)
                         sample_time sample_answers Absent)
     = Return (JSONResponse 500 (Error (str
         "Failed to save answers: [Errno 13] Permission denied: '/srv/app/api/student_responses.txt'"))).
Proof.
  split; [|vm_compute; reflexivity].
  vm_compute. intros H. discriminate H.
Qed.

(** C9, amended. Whenever the write of a valid submission fails, the handler
    returns (it does not raise) a response of status 500 whose error is
    ["Failed to save answers: "] followed by the text of the exception. *)
Theorem store_failure_surfaced (order : set_order) (repr : pystr -> pystr)
    (A : pydict)
                               (timestamp : pystr) (st left_behind : store)
                               (e : exn) :
  valid_submission A ->
  submit_answers order repr (WriteFails e left_behind) timestamp A st =
  (Return (JSONResponse 500
             (Error (str "Failed to save answers: " ++ exn_str repr e))),
   left_behind).
Proof.
  intros (Hwf & Hk & Hv). unfold submit_answers.
  rewrite (proj1 (keys_match_set_eqb A) Hk). cbn [negb].
  rewrite (first_invalid_valid A Hv). reflexivity.
Qed.

Lemma store_failure_surfaced_witness :
  submit_answers sample_order plain_repr
        (WriteFails disk_full Absent) sample_time
                 sample_answers Absent =
  (Return (JSONResponse 500
             (Error (str "Failed to save answers: "
                     ++ exn_str plain_repr disk_full))),
   Absent).
Proof.
  apply (store_failure_surfaced sample_order plain_repr
        sample_answers sample_time Absent
                                Absent disk_full).
  apply valid_submissionb_spec. vm_compute. reflexivity.
Defined.

(** ** The reader *)

Lemma usable_dec (s : pystr) : usable s \/ ~ usable s.
Proof.
  unfold usable. destruct (contains ANSWER s).
  - destruct (parse_response s).
    + right. intros [_ H]. congruence.
    + left. split; [reflexivity|discriminate].
  - right. intros [H _]. discriminate.
Qed.

Lemma scan_miss (s : pystr) (older : list pystr) :
  ~ usable s -> scan_responses (s :: older) = scan_responses older.
Proof.
  unfold usable. intros H. cbn [scan_responses].
  destruct (contains ANSWER s); [|reflexivity].
  destruct (parse_response s); [reflexivity|].
  exfalso. apply H. split; [reflexivity|discriminate].
Qed.

Lemma scan_hit (s : pystr) (older : list pystr) :
  usable s -> scan_responses (s :: older) = Some (parse_response s).
Proof.
  intros [Hc Hp]. cbn [scan_responses]. rewrite Hc.
  destruct (parse_response s); [congruence|reflexivity].
Qed.

Lemma scan_skip (xs ys : list pystr) :
  Forall (fun s => ~ usable s) xs ->
  scan_responses (xs ++ ys) = scan_responses ys.
Proof.
  induction 1 as [|s xs Hs _ IH]; [reflexivity|].
  cbn [app]. rewrite scan_miss by exact Hs. exact IH.
Qed.

Lemma scan_Some (xs : list pystr) (d : pydict) :
  scan_responses xs = Some d ->
  exists pre s post,
    xs = pre ++ s :: post /\ Forall (fun s' => ~ usable s') pre /\
    usable s /\ parse_response s = d.
Proof.
  induction xs as [|s xs IH]; [discriminate|].
  destruct (usable_dec s) as [Hu | Hu].
  - rewrite scan_hit by exact Hu. intros H. inversion H.
    exists [], s, xs. repeat split; try constructor; apply Hu.
  - rewrite scan_miss by exact Hu. intros H.
    destruct (IH H) as (pre & s' & post & -> & Hpre & Hs' & Hd).
    exists (s :: pre), s', post. repeat split; try assumption;
      try apply Hs'. constructor; assumption.
Qed.

Lemma scan_None (xs : list pystr) :
  scan_responses xs = None <-> Forall (fun s => ~ usable s) xs.
Proof.
  induction xs as [|s xs IH].
  - split; [constructor | reflexivity].
  - destruct (usable_dec s) as [Hu | Hu].
    + rewrite scan_hit by exact Hu. split; [discriminate|].
      intros H. inversion H. contradiction.
    + rewrite scan_miss by exact Hu. rewrite IH. split.
      * intros H. constructor; assumption.
      * intros H. inversion H. assumption.
Qed.

(** C3. Section selection: the text is split on the 60 [=]; with the
    sections taken from the last to the first, the reader returns the
    mapping of the latest section that has the marker ["Answer:"] and gives
    a non-empty mapping, every later section lacking the marker or giving an
    empty mapping; it returns [None] exactly when no section has the marker
    and gives a non-empty mapping. *)
Theorem latest_usable_section (content : pystr) :
  (forall d,
      get_latest_student_responses (Content content) = Return (Some d) <->
      exists older s newer,
        split SEP content = older ++ s :: newer /\
        contains ANSWER s = true /\ parse_response s = d /\ d <> [] /\
        Forall (fun s' => ~ (contains ANSWER s' = true /\
                             parse_response s' <> [])) newer) /\
  (get_latest_student_responses (Content content) = Return None <->
   Forall (fun s => ~ (contains ANSWER s = true /\ parse_response s <> []))
          (split SEP content)).
Proof.
  unfold get_latest_student_responses, read_latest.
  fold (usable). split.
  - intros d. split.
    + intros H. injection H as H.
      apply scan_Some in H as (pre & s & post & E & Hpre & [Hc Hp] & Hd).
      exists (rev post), s, (rev pre). repeat split.
      * rewrite <- (rev_involutive (split SEP content)), E.
        rewrite rev_app_distr. cbn [rev]. rewrite <- app_assoc. reflexivity.
      * exact Hc.
      * exact Hd.
      * rewrite <- Hd. exact Hp.
      * apply Forall_rev. exact Hpre.
    + intros (older & s & newer & E & Hc & Hd & Hne & Hnew).
      rewrite E, rev_app_distr. cbn [rev]. rewrite <- app_assoc.
      rewrite scan_skip by (apply Forall_rev; exact Hnew).
      cbn [app]. rewrite scan_hit; [rewrite Hd; reflexivity|].
      split; [exact Hc | rewrite Hd; exact Hne].
  - split.
    + intros H. injection H as H. apply scan_None in H.
      rewrite <- (rev_involutive (split SEP content)).
      apply Forall_rev. exact H.
    + intros H. f_equal. apply scan_None, Forall_rev. exact H.
Qed.

Lemma reader_returns (st : store) :
  exists r, get_latest_student_responses st = Return r.
Proof.
  destruct st as [|e|text]; unfold get_latest_student_responses; simpl.
  - eauto.
  - destruct e; eauto.
  - eauto.
Qed.

(** C4. The reader is total: whatever the file is (absent, unreadable, or
    holding any text at all, empty, cut short or malformed), it returns
    [None] or a mapping and never raises. *)
Theorem reader_never_raises :
  (forall st, exists r, get_latest_student_responses st = Return r) /\
  get_latest_student_responses Absent = Return None /\
  (forall e, get_latest_student_responses (Unreadable e) = Return None) /\
  get_latest_student_responses (Content []) = Return None.
Proof.
  repeat split.
  - exact reader_returns.
  - intros e. destruct e; reflexivity.
Qed.

(** C10. The reader never returns an empty mapping: its result is [None] or
    a mapping with at least one pair. *)
Theorem reader_result_not_empty (st : store) (d : pydict) :
  get_latest_student_responses st = Return (Some d) -> d <> [].
Proof.
  destruct st as [|e|text]; unfold get_latest_student_responses; simpl.
  - discriminate.
  - destruct e; discriminate.
  - intros H. injection H as H.
    apply scan_Some in H as (_ & s & _ & _ & _ & [_ Hp] & Hd).
    rewrite <- Hd. exact Hp.
Qed.

Lemma reader_result_not_empty_witness :
  [(str "Q1", str "Googled aggressively")] <> [].
Proof.
  apply (reader_result_not_empty
           (Content (str "Q1: What did you do?" ++ nl
                     ++ str "Answer: Googled aggressively" ++ nl))).
  vm_compute. reflexivity.
Defined.

(** A record cut in the middle of its second answer line still gives the
    pairs read so far, the second one with what is left of its answer. *)
Example truncated_record_read :
  get_latest_student_responses
    (Content (firstn 330 (record_header sample_time ++ blocks sample_answers)))
  = Return (Some [ (str "Q2", str "Googled aggressively");
                   (str "Q1", str "Submit") ]).
Proof. vm_compute. reflexivity. Qed.

(** ** Validation of a submission *)

(** C5. Validation: when the submitted key set differs from that of the
    catalogue (an id is missing, or there is an extra one), the submission is
    rejected with status 400 and the error ["Missing answers for questions: "]
    followed by the ids of the catalogue absent from it, each once and no
    other, separated by [", "], in the order in which the set is iterated;
    when the key sets agree and some answer is not, as an exact string, an
    option of its question, it is rejected with status 400 and the error
    ["Invalid answer for "], such an id (the first in the order of the
    submission), [". Please select from the provided options."]; when the
    key sets agree and every answer is an option, it is accepted and the
    response carries the submitted mapping unchanged. *)
Theorem validation_contract (order : set_order) (repr : pystr -> pystr)
                            (io : write_outcome) (timestamp : pystr)
                            (A : pydict) (st : store) :
  (~ keys_match A ->
   exists missing,
     NoDup missing /\
     (forall q, In q missing <-> In q question_ids /\ ~ In q (keys A)) /\
     submit_answers order repr io timestamp A st =
     (Return (JSONResponse 400
                (Error (str "Missing answers for questions: "
                        ++ join (str ", ") missing))),
      st)) /\
  (keys_match A -> ~ values_valid A ->
   exists before q a e after,
     A = before ++ (q, a) :: after /\ values_valid before /\
     entry_get q QUESTIONS = Some e /\ ~ In a (options e) /\
     submit_answers order repr io timestamp A st =
     (Return (JSONResponse 400
                (Error (str "Invalid answer for " ++ q
                        ++ str ". Please select from the provided options."))),
      st)) /\
  (keys_match A -> values_valid A ->
   submit_answers order repr WriteOk timestamp A st =
   (Return (JSONResponse 200 (Success timestamp A)),
    Content (record_header timestamp ++ blocks A))).
Proof.
  split; [|split].
  - intros Hk.
    exists (iterate order (set_diff question_ids (keys A))).
    pose proof (iterate_perm order (set_diff question_ids (keys A))) as P.
    split; [|split].
    + apply (Permutation_NoDup (Permutation_sym P)).
      apply NoDup_filter. exact question_ids_NoDup.
    + intros q. rewrite <- set_diff_spec. split.
      * apply Permutation_in. exact P.
      * apply Permutation_in. apply Permutation_sym. exact P.
    + unfold submit_answers.
      destruct (set_eqb question_ids (keys A)) eqn:E; [|reflexivity].
      exfalso. apply Hk, keys_match_set_eqb, E.
  - intros Hk Hv. unfold submit_answers.
    rewrite (proj1 (keys_match_set_eqb A) Hk). cbn [negb].
    destruct (first_invalid_cases A) as
      [[_ H] | (b & q & a & e & af & E & Hb & He & Hn & Hf)].
    + intros q Hq. apply Hk, Hq.
    + contradiction.
    + exists b, q, a, e, af. rewrite Hf. repeat split; assumption.
  - intros Hk Hv. unfold submit_answers.
    rewrite (proj1 (keys_match_set_eqb A) Hk). cbn [negb].
    rewrite (first_invalid_valid A Hv).
    rewrite write_blocks_ok by (apply valid_items_ok; exact Hv).
    reflexivity.
Qed.

(** The rejection of the specification's example: only Q1 is answered, and
    Q2, Q3 and Q4 are reported, in the order of the set. *)
Lemma validation_contract_witness :
  exists missing,
    NoDup missing /\
    (forall q, In q missing <->
               In q question_ids /\
               ~ In q (keys [(str "Q1",
                              str "Submitted on time (solid responsible energy)")])) /\
    submit_answers sample_order plain_repr WriteOk sample_time
      [(str "Q1", str "Submitted on time (solid responsible energy)")] Absent =
    (Return (JSONResponse 400
               (Error (str "Missing answers for questions: "
                       ++ join (str ", ") missing))),
     Absent).
Proof.
  refine (proj1 (validation_contract sample_order plain_repr WriteOk
            sample_time
            [(str "Q1", str "Submitted on time (solid responsible energy)")]
            Absent) _).
  intros H. destruct (proj2 (H (str "Q2"))) as [E | []].
  - right. left. reflexivity.
  - vm_compute in E. discriminate E.
Defined.

(** With the set order of the examples the three ids come out as Q3, Q4,
    Q2; another order gives another arrangement of the same ids. *)
Example missing_ids_in_set_order :
  fst (submit_answers sample_order plain_repr WriteOk sample_time
         [(str "Q1", str "Submitted on time (solid responsible energy)")]
         Absent)
  = Return (JSONResponse 400
              (Error (str "Missing answers for questions: Q3, Q4, Q2"))).
Proof. vm_compute. reflexivity. Qed.

(** An answer that differs from an option only by case is rejected. *)
Example lowercase_answer_rejected :
  fst (submit_answers sample_order plain_repr WriteOk sample_time
         [ (str "Q1", str "Submitted on time (solid responsible energy)");
           (str "Q2", str "googled aggressively");
           (str "Q3", str "I type in the chat (participation ninja)");
           (str "Q4", str "1 hour (efficient or reckless? undecided)") ]
         Absent)
  = Return (JSONResponse 400 (Error (str
      "Invalid answer for Q2. Please select from the provided options."))).
Proof. vm_compute. reflexivity. Qed.

(** ** The behaviour summary *)

Lemma append_behavior_flat (qids : list pystr) (d : pydict) :
  forall acc,
    append_behavior qids d acc =
    acc ++ flat_map (fun q => match dict_get q d with
                              | Some a => [str "- " ++ a]
                              | None => []
                              end) qids.
Proof.
  induction qids as [|q qids IH]; intros acc; cbn [append_behavior flat_map].
  - rewrite app_nil_r. reflexivity.
  - destruct (dict_get q d) as [a|].
    + rewrite IH, <- app_assoc. reflexivity.
    + apply IH.
Qed.

Lemma bullets_count (qids : list pystr) (d : pydict) :
  length (flat_map (fun q => match dict_get q d with
                             | Some a => [str "- " ++ a]
                             | None => []
                             end) qids)
  = length (filter (fun q => dict_mem q d) qids).
Proof.
  induction qids as [|q qids IH]; [reflexivity|].
  cbn [flat_map filter]. unfold dict_mem at 1.
  destruct (dict_get q d); cbn [app length]; rewrite IH; reflexivity.
Qed.

(** C7. The summary: it is empty for [None] and for the empty mapping;
    otherwise it is the header, then one bullet ["- " ++ answer] for each id
    of the catalogue that the mapping has, in the order of the catalogue (so
    an id of the mapping that the catalogue lacks gives no bullet), then the
    instruction, these lines joined by newlines. *)
Theorem summary_contract :
  summarize None = [] /\
  summarize (Some []) = [] /\
  forall kv d,
    let answers := kv :: d in
    summarize (Some answers) =
    join nl ([summary_header] ++ bullets answers ++ [summary_footer]) /\
    length (bullets answers) =
    length (filter (fun q => dict_mem q answers) question_ids) /\
    Forall (fun b => exists q a, In q question_ids /\
                                 dict_get q answers = Some a /\
                                 b = str "- " ++ a) (bullets answers).
Proof.
  split; [reflexivity|]. split; [reflexivity|].
  intros kv d answers. split; [|split].
  - unfold summarize, answers. rewrite append_behavior_flat.
    rewrite <- app_assoc. reflexivity.
  - apply bullets_count.
  - apply Forall_forall. intros b Hb. unfold bullets in Hb.
    apply in_flat_map in Hb as (q & Hq & Hb).
    destruct (dict_get q answers) as [a|] eqn:E; [|destruct Hb].
    destruct Hb as [<- | []]. exists q, a. auto.
Qed.

(** The summary of the end-to-end example has the four answers in the order
    Q1 to Q4, although the mapping has Q2 first. *)
Example sample_summary :
  summarize (Some sample_answers) =
  nl ++ nl ++ str "The student's recent behavior report:" ++ nl ++
  str "- Submitted on time (solid responsible energy)" ++ nl ++
  str "- Googled aggressively" ++ nl ++
  str "- I type in the chat (participation ninja)" ++ nl ++
  str "- 1 hour (efficient or reckless? undecided)" ++ nl ++
  nl ++ str "Use this info to personalize your response. Reference their actual choices explicitly.".
Proof. vm_compute. reflexivity. Qed.

(** ** The prompts *)

(** C6. Prompt shape: for each of the three personas, every behaviour
    summary (the empty one too) and every live message, the prompt has
    exactly four messages, with the roles system, user, assistant, user, and
    the content of the last one is the live message as it is. *)
Theorem prompt_shape (p : persona) (behavior_summary req_message : pystr) :
  length (persona_messages p behavior_summary req_message) = 4 /\
  map msg_role (persona_messages p behavior_summary req_message)
  = [system; user; assistant; user] /\
  map msg_content
      (skipn 3 (persona_messages p behavior_summary req_message))
  = [req_message].
Proof. destruct p; repeat split. Qed.

(** Each chat handler sends the prompt built from the summary of the file. *)
Lemma chat_sends_prompt (create : pystr -> list message -> py pystr)
                        (p : persona) (st : store) (req_message : pystr) :
  exists behavior_summary,
    build_behavior_summary st = Return behavior_summary /\
    chat create p st req_message =
    create (str "gpt-4o-mini")
           (persona_messages p behavior_summary req_message).
Proof.
  unfold chat, build_behavior_summary.
  destruct (reader_returns st) as [r Hr].
  rewrite Hr. cbn [bind]. eauto.
Qed.

(** * Further properties *)

(** ** Sections of a file *)

Lemma join_cons (sep p : pystr) (ps : list pystr) :
  ps <> [] -> join sep (p :: ps) = p ++ sep ++ join sep ps.
Proof. destruct ps; [congruence|reflexivity]. Qed.

Lemma split_fuel_not_nil (n : nat) (sep s : pystr) : split_fuel n sep s <> [].
Proof.
  destruct n; simpl; [discriminate|].
  destruct (cut sep s) as [[b r]|]; discriminate.
Qed.

Lemma join_split_fuel (sep : pystr) (n : nat) :
  forall s, join sep (split_fuel n sep s) = s.
Proof.
  induction n as [|n IH]; intros s; [reflexivity|].
  cbn [split_fuel]. destruct (cut sep s) as [[b r]|] eqn:E; [|reflexivity].
  rewrite join_cons by apply split_fuel_not_nil.
  rewrite IH. symmetry. apply cut_Some. exact E.
Qed.

(** X1. Splitting a file on the separator loses nothing: the sections joined
    with the 60 [=] are the text of the file. *)
Theorem sections_rejoin (content : pystr) :
  join SEP (split SEP content) = content.
Proof. apply join_split_fuel. Qed.

Lemma cut_first (c : char) (sep' l r : pystr) :
  no_char c l = true ->
  cut (c :: sep') (l ++ (c :: sep') ++ r) = Some (l, r).
Proof.
  induction l as [|x l IH]; intros H.
  - apply (cut_here (c :: sep') r).
  - simpl in H. apply andb_true_iff in H as [Hx Hl].
    change ((x :: l) ++ (c :: sep') ++ r)
      with (x :: (l ++ (c :: sep') ++ r)).
    rewrite cut_skip.
    + rewrite IH by exact Hl. reflexivity.
    + cbn [strip_prefix]. rewrite N.eqb_sym.
      destruct (N.eqb x c); [discriminate|reflexivity].
Qed.

Lemma no_char_record (A : pydict) :
  items_ok A -> no_char 61%N ((nl ++ nl) ++ blocks A) = true.
Proof.
  intros HA. rewrite no_char_app. apply andb_true_iff.
  split; [reflexivity|].
  apply no_char_blocks; [discriminate|].
  eapply Forall_impl; [|exact HA]. intros [q a] F. apply F.
Qed.

(** X2. The sections of a record: when the timestamp has no [=] (the one
    [strftime] gives has none), the text written for a valid submission
    splits into exactly three sections: an empty one, the line of the
    timestamp, and the question/answer blocks. *)
Theorem record_sections (A : pydict) (timestamp : pystr) :
  valid_submission A -> no_char 61%N timestamp = true ->
  split SEP (record_header timestamp ++ blocks A) =
  [ [];
    nl ++ str "Response submitted at: " ++ timestamp ++ nl;
    (nl ++ nl) ++ blocks A ].
Proof.
  intros (_ & _ & Hv) Ht. unfold record_header.
  replace (((SEP ++ nl)
            ++ (str "Response submitted at: " ++ timestamp ++ nl)
            ++ SEP ++ nl ++ nl) ++ blocks A)
    with (SEP ++ (nl ++ str "Response submitted at: " ++ timestamp ++ nl)
              ++ SEP ++ ((nl ++ nl) ++ blocks A))
    by (rewrite <- !app_assoc; reflexivity).
  rewrite split_eq by exact SEP_not_nil. rewrite cut_here. f_equal.
  rewrite split_eq by exact SEP_not_nil.
  change SEP with (61%N :: repeat 61%N 59) at 1 2.
  rewrite cut_first.
  - f_equal. rewrite split_eq by exact SEP_not_nil.
    change SEP with (61%N :: repeat 61%N 59).
    rewrite cut_no_char by (apply no_char_record, valid_items_ok, Hv).
    reflexivity.
  - rewrite !no_char_app, Ht. reflexivity.
Qed.

Lemma record_sections_witness :
  split SEP (record_header sample_time ++ blocks sample_answers) =
  [ [];
    nl ++ str "Response submitted at: " ++ sample_time ++ nl;
    (nl ++ nl) ++ blocks sample_answers ].
Proof.
  apply (record_sections sample_answers sample_time).
  - apply valid_submissionb_spec. vm_compute. reflexivity.
  - vm_compute. reflexivity.
Defined.

(** X3. The last record wins whatever comes before it: for any text [u]
    (older records of an appending writer, or anything else), the reader of
    [u] followed by the record of a valid submission returns this
    submission. *)
Theorem reader_takes_last_record (u : pystr) (A : pydict)
                                 (timestamp : pystr) :
  valid_submission A ->
  get_latest_student_responses
    (Content (u ++ record_header timestamp ++ blocks A))
  = Return (Some A).
Proof.
  intros (Hwf & Hk & Hv).
  assert (HA := valid_items_ok A Hv). assert (Hne := valid_not_nil A Hk).
  unfold get_latest_student_responses, read_latest.
  rewrite record_text_shape.
  replace (u ++ ((((SEP ++ nl) ++ str "Response submitted at: " ++ timestamp)
                    ++ nl) ++ SEP ++ (nl ++ nl) ++ blocks A))
    with (((u ++ (SEP ++ nl) ++ str "Response submitted at: " ++ timestamp)
             ++ nl) ++ SEP ++ ((nl ++ nl) ++ blocks A))
    by (rewrite <- !app_assoc; reflexivity).
  destruct (split_SEP_last _ (no_char_record A HA)
              (u ++ (SEP ++ nl) ++ str "Response submitted at: " ++ timestamp))
    as [older Ho].
  rewrite Ho, rev_app_distr. cbn [rev app scan_responses].
  rewrite section_has_answer, parse_section by assumption.
  destruct A; [congruence|reflexivity].
Qed.

Lemma reader_takes_last_record_witness :
  get_latest_student_responses
    (Content (earlier_text ++ record_header sample_time
              ++ blocks sample_answers))
  = Return (Some sample_answers).
Proof.
  apply (reader_takes_last_record earlier_text sample_answers sample_time).
  apply valid_submissionb_spec. vm_compute. reflexivity.
Defined.

Lemma contains_iff (sep s : pystr) :
  contains sep s = true <-> exists l r, s = l ++ sep ++ r.
Proof.
  split.
  - unfold contains. destruct (cut sep s) as [[b a]|] eqn:E; [|discriminate].
    intros _. exists b, a. apply cut_Some. exact E.
  - intros (l & r & ->). apply contains_app.
Qed.

Lemma contains_inside (sep l s r : pystr) :
  contains sep s = true -> contains sep (l ++ s ++ r) = true.
Proof.
  intros H. apply contains_iff in H as (l' & r' & ->).
  apply contains_iff. exists (l ++ l'), (r' ++ r).
  rewrite <- !app_assoc. reflexivity.
Qed.

Lemma split_fuel_inside (sep : pystr) (n : nat) :
  forall s x, In x (split_fuel n sep s) -> exists l r, s = l ++ x ++ r.
Proof.
  induction n as [|n IH]; intros s x Hx.
  - destruct Hx as [<- | []]. exists [], []. rewrite app_nil_r. reflexivity.
  - cbn [split_fuel] in Hx. destruct (cut sep s) as [[b a]|] eqn:E.
    + apply cut_Some in E. destruct Hx as [<- | Hx].
      * exists [], (sep ++ a). exact E.
      * destruct (IH _ _ Hx) as (l & r & ->).
        exists (b ++ sep ++ l), r. rewrite E, <- !app_assoc. reflexivity.
    + destruct Hx as [<- | []]. exists [], []. rewrite app_nil_r. reflexivity.
Qed.

(** X4. Without the marker there is no record: a file whose text does not
    contain ["Answer:"] gives [None]. *)
Theorem reader_without_marker (content : pystr) :
  contains ANSWER content = false ->
  get_latest_student_responses (Content content) = Return None.
Proof.
  intros H. unfold get_latest_student_responses, read_latest. f_equal.
  apply scan_None, Forall_rev, Forall_forall. intros s Hs [Hc _].
  apply split_fuel_inside in Hs as (l & r & E).
  rewrite E, contains_inside in H by exact Hc. discriminate.
Qed.

Lemma reader_without_marker_witness :
  get_latest_student_responses
    (Content (record_header sample_time ++ str "Q1: What did you do?" ++ nl))
  = Return None.
Proof.
  apply (reader_without_marker
           (record_header sample_time ++ str "Q1: What did you do?" ++ nl)).
  vm_compute. reflexivity.
Defined.

(** ** The pairs read from a section *)

Lemma dict_set_In (k v k' v' : pystr) (d : pydict) :
  In (k, v) (dict_set k' v' d) -> (k = k' /\ v = v') \/ In (k, v) d.
Proof.
  induction d as [|[k0 v0] d IH]; cbn [dict_set].
  - intros [H | []]. inversion H. left. split; reflexivity.
  - destruct (str_eqb k' k0) eqn:E.
    + apply str_eqb_eq in E. subst k0. intros [H | H].
      * inversion H. left. split; reflexivity.
      * right. right. exact H.
    + intros [H | H].
      * right. left. exact H.
      * destruct (IH H) as [Hl | Hr]; [left; exact Hl | right; right; exact Hr].
Qed.

Lemma dict_set_keys (k k' v' : pystr) (d : pydict) :
  In k (keys (dict_set k' v' d)) <-> k = k' \/ In k (keys d).
Proof.
  induction d as [|[k0 v0] d IH]; cbn [dict_set].
  - simpl. intuition congruence.
  - destruct (str_eqb k' k0) eqn:E.
    + apply str_eqb_eq in E. subst k0. simpl. intuition congruence.
    + simpl. rewrite IH. intuition congruence.
Qed.

Lemma dict_set_NoDup (k v : pystr) (d : pydict) :
  NoDup (keys d) -> NoDup (keys (dict_set k v d)).
Proof.
  induction d as [|[k0 v0] d IH]; cbn [dict_set]; intros H.
  - simpl. constructor; [intros []|constructor].
  - destruct (str_eqb k k0) eqn:E; [exact H|].
    simpl in H |- *. inversion H as [|? ? Hn Hd]; subst.
    constructor; [|apply IH; exact Hd].
    intros Hin. apply dict_set_keys in Hin as [-> | Hin]; [|contradiction].
    rewrite str_eqb_refl in E. discriminate.
Qed.

Lemma find_answer_Some (rest : list pystr) (v : pystr) :
  find_answer rest = Some v <->
  exists mid ans post,
    rest = mid ++ ans :: post /\
    Forall (fun l => startswith ANSWER l = false) mid /\
    startswith ANSWER ans = true /\ v = strip (replace ANSWER [] ans).
Proof.
  induction rest as [|l rest IH]; cbn [find_answer].
  - split; [discriminate|]. intros (mid & ans & post & E & _).
    destruct mid; discriminate.
  - destruct (startswith ANSWER l) eqn:El.
    + split.
      * intros H. inversion H. exists [], l, rest. repeat split; auto.
      * intros (mid & ans & post & E & Hmid & Hans & ->).
        destruct mid as [|m mid]; inversion E; subst; [reflexivity|].
        inversion Hmid; subst. congruence.
    + rewrite IH. split.
      * intros (mid & ans & post & -> & Hmid & Hans & ->).
        exists (l :: mid), ans, post. repeat split; auto.
      * intros (mid & ans & post & E & Hmid & Hans & ->).
        destruct mid as [|m mid]; inversion E; subst; [congruence|].
        inversion Hmid; subst. exists mid, ans, post. repeat split; auto.
Qed.

Lemma pair_from_lines_later (line : pystr) (lines : list pystr)
                            (k v : pystr) :
  pair_from_lines lines k v -> pair_from_lines (line :: lines) k v.
Proof.
  intros (pre & l & mid & ans & post & -> & H).
  exists (line :: pre), l, mid, ans, post. split; [reflexivity | exact H].
Qed.

Lemma parse_lines_sound (lines : list pystr) :
  forall d k v,
    In (k, v) (parse_lines lines d) ->
    In (k, v) d \/ pair_from_lines lines k v.
Proof.
  induction lines as [|line rest IH]; intros d k v H; [left; exact H|].
  cbn [parse_lines] in H.
  destruct (startswith (str "Q") line && contains (str ":") line
            && negb (Nat.eqb (length rest) 0)) eqn:C.
  - cbv zeta in H. destruct (find_answer rest) as [answer|] eqn:F.
    + destruct (IH _ _ _ H) as [Hd | Hp];
        [|right; apply pair_from_lines_later; exact Hp].
      apply dict_set_In in Hd as [[-> ->] | Hd]; [|left; exact Hd].
      right. apply find_answer_Some in F
        as (mid & ans & post & -> & Hmid & Hans & ->).
      apply andb_true_iff in C as [C _]. apply andb_true_iff in C.
      exists [], line, mid, ans, post. repeat split; auto; apply C.
    + destruct (IH _ _ _ H) as [Hd | Hp]; [left; exact Hd|].
      right. apply pair_from_lines_later. exact Hp.
  - destruct (IH _ _ _ H) as [Hd | Hp]; [left; exact Hd|].
    right. apply pair_from_lines_later. exact Hp.
Qed.

Lemma parse_lines_keeps_keys (lines : list pystr) :
  forall d k, In k (keys d) -> In k (keys (parse_lines lines d)).
Proof.
  induction lines as [|line rest IH]; intros d k H; [exact H|].
  cbn [parse_lines].
  destruct (startswith (str "Q") line && contains (str ":") line
            && negb (Nat.eqb (length rest) 0)); [|apply IH; exact H].
  cbv zeta. destruct (find_answer rest); apply IH; [|exact H].
  apply dict_set_keys. right. exact H.
Qed.

Lemma parse_lines_complete (lines : list pystr) (k v : pystr) :
  pair_from_lines lines k v ->
  forall d, In k (keys (parse_lines lines d)).
Proof.
  intros (pre & line & mid & ans & post & -> & [HQ Hc] & -> & Hmid & Hans & Hv).
  induction pre as [|p pre IH]; intros d.
  - cbn [app parse_lines]. rewrite HQ, Hc.
    replace (Nat.eqb (length (mid ++ ans :: post)) 0) with false
      by (rewrite length_app; simpl; rewrite Nat.add_succ_r; reflexivity).
    cbn [negb andb]. cbv zeta.
    assert (F : find_answer (mid ++ ans :: post) = Some v).
    { apply find_answer_Some. exists mid, ans, post. auto. }
    rewrite F. apply parse_lines_keeps_keys, dict_set_keys. left. reflexivity.
  - cbn [app parse_lines].
    destruct (startswith (str "Q") p && contains (str ":") p
              && negb (Nat.eqb (length (pre ++ line :: mid ++ ans :: post)) 0));
      [|apply IH].
    cbv zeta. destruct (find_answer (pre ++ line :: mid ++ ans :: post));
      apply IH.
Qed.

Lemma parse_lines_NoDup (lines : list pystr) :
  forall d, NoDup (keys d) -> NoDup (keys (parse_lines lines d)).
Proof.
  induction lines as [|line rest IH]; intros d H; [exact H|].
  cbn [parse_lines].
  destruct (startswith (str "Q") line && contains (str ":") line
            && negb (Nat.eqb (length rest) 0)); [|apply IH; exact H].
  cbv zeta. destruct (find_answer rest); apply IH; [|exact H].
  apply dict_set_NoDup. exact H.
Qed.

(** X5. What is read from a section: every pair of the mapping comes from an
    id line (it starts with [Q] and has a colon; the id is what precedes the
    first colon, stripped) and from the first line after it that starts with
    ["Answer:"] (the answer is this line without ["Answer:"], stripped); and
    every id line that has such a line after it gives a key of the mapping. *)
Theorem section_pairs (section : pystr) :
  (forall k v, In (k, v) (parse_response section) ->
               pair_from_lines (split nl (strip section)) k v) /\
  (forall k v, pair_from_lines (split nl (strip section)) k v ->
               In k (keys (parse_response section))).
Proof.
  unfold parse_response. split.
  - intros k v H. apply parse_lines_sound in H as [[] | H]. exact H.
  - intros k v H. apply (parse_lines_complete _ k v H).
Qed.

Lemma no_char_lstrip (c : char) (s : pystr) :
  no_char c s = true -> no_char c (lstrip s) = true.
Proof.
  induction s as [|x s IH]; intros H; [reflexivity|].
  cbn [lstrip]. destruct (is_space x); [|exact H].
  simpl in H. apply andb_true_iff in H as [_ H]. auto.
Qed.

Lemma no_char_rstrip (c : char) (s : pystr) :
  no_char c s = true -> no_char c (rstrip s) = true.
Proof.
  induction s as [|x s IH]; intros H; [reflexivity|].
  simpl in H. apply andb_true_iff in H as [Hx Hs].
  rewrite rstrip_cons. specialize (IH Hs).
  destruct (rstrip s) as [|k kept].
  - destruct (is_space x); [reflexivity|]. simpl. rewrite Hx. reflexivity.
  - change (no_char c (x :: k :: kept))
      with (negb (N.eqb x c) && no_char c (k :: kept)).
    rewrite Hx, IH. reflexivity.
Qed.

Lemma rstrip_idem (s : pystr) : rstrip (rstrip s) = rstrip s.
Proof.
  induction s as [|x s IH]; [reflexivity|].
  rewrite rstrip_cons. destruct (rstrip s) as [|k kept] eqn:E.
  - destruct (is_space x) eqn:Ex; [reflexivity|].
    rewrite rstrip_cons. cbn [rstrip fold_right]. rewrite Ex. reflexivity.
  - rewrite rstrip_cons, IH. reflexivity.
Qed.

Lemma rstrip_keeps_head (x : char) (s : pystr) :
  is_space x = false -> exists s', rstrip (x :: s) = x :: s'.
Proof.
  intros Hx. rewrite rstrip_cons. destruct (rstrip s) as [|k kept].
  - rewrite Hx. eauto.
  - eauto.
Qed.

Lemma lstrip_head (s : pystr) :
  lstrip s = [] \/ exists x r, lstrip s = x :: r /\ is_space x = false.
Proof.
  induction s as [|x s IH]; [left; reflexivity|].
  cbn [lstrip]. destruct (is_space x) eqn:E; [exact IH|].
  right. exists x, s. split; [reflexivity | exact E].
Qed.

Lemma strip_idem (s : pystr) : strip (strip s) = strip s.
Proof.
  unfold strip. destruct (lstrip_head s) as [-> | (x & r & -> & Hx)];
    [reflexivity|].
  destruct (rstrip_keeps_head x r Hx) as [s' E].
  rewrite E at 1. cbn [lstrip]. rewrite Hx, <- E. apply rstrip_idem.
Qed.

Lemma cut_char_before (c : char) (s : pystr) :
  forall b a, cut [c] s = Some (b, a) -> no_char c b = true.
Proof.
  induction s as [|x s IH]; intros b a H; [discriminate|].
  cbn [cut strip_prefix] in H. destruct (N.eqb c x) eqn:E.
  - destruct s; inversion H; reflexivity.
  - destruct (cut [c] s) as [[b' a']|] eqn:Ec; [|discriminate].
    inversion H; subst. simpl. rewrite N.eqb_sym, E. simpl.
    apply (IH b' a). reflexivity.
Qed.

Lemma cut_pieces_no_char (c : char) (sep s b a : pystr) :
  cut sep s = Some (b, a) -> no_char c s = true ->
  no_char c b = true /\ no_char c a = true.
Proof.
  intros H Hs. apply cut_Some in H. subst s.
  rewrite !no_char_app in Hs.
  apply andb_true_iff in Hs as [Hb Hs]. apply andb_true_iff in Hs as [_ Ha].
  auto.
Qed.

Lemma split_fuel_no_char (c : char) (sep : pystr) (n : nat) :
  forall s, no_char c s = true ->
            Forall (fun p => no_char c p = true) (split_fuel n sep s).
Proof.
  induction n as [|n IH]; intros s Hs; cbn [split_fuel].
  - constructor; [exact Hs|constructor].
  - destruct (cut sep s) as [[b a]|] eqn:E.
    + destruct (cut_pieces_no_char c _ _ _ _ E Hs) as [Hb Ha].
      constructor; [exact Hb | apply IH; exact Ha].
    + constructor; [exact Hs|constructor].
Qed.

Lemma cut_char_none (c : char) (s : pystr) :
  cut [c] s = None -> no_char c s = true.
Proof.
  induction s as [|x s IH]; intros H; [reflexivity|].
  cbn [cut strip_prefix] in H. destruct (N.eqb c x) eqn:E.
  - destruct s; discriminate.
  - destruct (cut [c] s) as [[b a]|]; [discriminate|].
    simpl. rewrite N.eqb_sym, E. simpl. apply IH. reflexivity.
Qed.

Lemma split_char_pieces (c : char) (n : nat) :
  forall s, length s <= n ->
            Forall (fun l => no_char c l = true) (split_fuel n [c] s).
Proof.
  induction n as [|n IH]; intros s Hn; cbn [split_fuel].
  - destruct s; [|simpl in Hn; lia]. constructor; [reflexivity|constructor].
  - destruct (cut [c] s) as [[b a]|] eqn:E.
    + constructor; [apply (cut_char_before c s b a E)|].
      apply IH. apply cut_shorter in E; [lia|discriminate].
    + constructor; [apply cut_char_none; exact E|constructor].
Qed.

Lemma lines_no_newline (s : pystr) :
  Forall (fun l => no_char 10%N l = true) (split nl s).
Proof. apply split_char_pieces. apply le_n. Qed.

Lemma no_char_join_nil (c : char) (ps : list pystr) :
  Forall (fun p => no_char c p = true) ps -> no_char c (join [] ps) = true.
Proof.
  induction 1 as [|p ps Hp _ IH]; [reflexivity|].
  destruct ps as [|p' ps]; [exact Hp|].
  change (join [] (p :: p' :: ps)) with (p ++ [] ++ join [] (p' :: ps)).
  rewrite !no_char_app, Hp, IH. reflexivity.
Qed.

(** The id read from an id line that has no newline. *)
Lemma id_shape (line : pystr) :
  no_char 10%N line = true ->
  startswith (str "Q") line = true -> contains (str ":") line = true ->
  let k := strip (hd [] (split (str ":") line)) in
  startswith (str "Q") k = true /\ no_char 58%N k = true /\
  no_char 10%N k = true /\ strip k = k.
Proof.
  intros Hnl HQ Hc k. subst k.
  rewrite split_eq by discriminate. unfold contains in Hc.
  destruct (cut (str ":") line) as [[b a]|] eqn:E; [|discriminate].
  cbn [hd].
  assert (Hb58 : no_char 58%N b = true) by exact (cut_char_before _ _ _ _ E).
  assert (Hb10 : no_char 10%N b = true)
    by exact (proj1 (cut_pieces_no_char _ _ _ _ _ E Hnl)).
  apply startswith_Q in HQ as [s' Hs']. apply cut_Some in E.
  destruct b as [|x b].
  { rewrite Hs' in E. discriminate E. }
  rewrite Hs' in E. injection E as <- _.
  unfold strip at 1 2 3. cbn [lstrip is_space].
  change (is_space 81%N) with false. cbv iota.
  destruct (rstrip_keeps_head 81%N b eq_refl) as [r Hr].
  repeat split.
  - rewrite Hr. reflexivity.
  - apply no_char_rstrip. exact Hb58.
  - apply no_char_rstrip. exact Hb10.
  - change (rstrip (81%N :: b)) with (strip (81%N :: b)). apply strip_idem.
Qed.

(** The answer read from an answer line that has no newline. *)
Lemma answer_shape (ans : pystr) :
  no_char 10%N ans = true ->
  let v := strip (replace ANSWER [] ans) in
  no_char 10%N v = true /\ strip v = v.
Proof.
  intros H v. subst v. split; [|apply strip_idem].
  unfold strip. apply no_char_rstrip, no_char_lstrip.
  unfold replace. apply no_char_join_nil, split_fuel_no_char. exact H.
Qed.

Lemma pair_from_lines_shape (lines : list pystr) (k v : pystr) :
  Forall (fun l => no_char 10%N l = true) lines ->
  pair_from_lines lines k v -> pair_shape (k, v).
Proof.
  intros Hl (pre & line & mid & ans & post & -> & [HQ Hc] & -> & _ & _ & ->).
  apply Forall_app in Hl as [_ Hl]. inversion Hl as [|? ? Hline Hl']; subst.
  apply Forall_app in Hl' as [_ Hl']. inversion Hl' as [|? ? Hans _]; subst.
  split; [apply id_shape | apply answer_shape]; assumption.
Qed.

(** A mapping the scan returns is the mapping of one of the sections, and it
    is not empty. *)
Lemma scan_Some_section (xs : list pystr) (d : pydict) :
  scan_responses xs = Some d ->
  exists s, In s xs /\ parse_response s = d /\ d <> [].
Proof.
  intros H. apply scan_Some in H as (pre & s & post & -> & _ & [_ Hp] & Hd).
  exists s. split; [apply in_or_app; right; left; reflexivity|].
  split; [exact Hd | rewrite <- Hd; exact Hp].
Qed.

(** X6. The mapping the reader returns is well formed: no id occurs twice;
    each id starts with [Q], has no colon and no newline, and has no white
    space at its ends; each answer has no newline and no white space at its
    ends. *)
Theorem reader_pairs_shape (st : store) (d : pydict) :
  get_latest_student_responses st = Return (Some d) ->
  wf_dict d /\ Forall pair_shape d.
Proof.
  destruct st as [|e|text]; unfold get_latest_student_responses; simpl.
  - discriminate.
  - destruct e; discriminate.
  - intros H. injection H as H.
    apply scan_Some_section in H as (s & _ & <- & _). split.
    + unfold wf_dict, parse_response. apply parse_lines_NoDup. constructor.
    + apply Forall_forall. intros [k v] Hin.
      apply (pair_from_lines_shape (split nl (strip s)));
        [apply lines_no_newline|].
      unfold parse_response in Hin.
      apply parse_lines_sound in Hin as [[] | Hin]. exact Hin.
Qed.

Lemma reader_pairs_shape_witness :
  wf_dict [(str "Q1", str "Googled aggressively")] /\
  Forall pair_shape [(str "Q1", str "Googled aggressively")].
Proof.
  apply (reader_pairs_shape
           (Content (str "   Q1 : What did you do?" ++ nl
                     ++ str "Q1  : What did you do?" ++ nl ++ nl
                     ++ str "Answer:   Googled aggressively  " ++ nl))).
  vm_compute. reflexivity.
Defined.

(** ** The outcomes of a submission *)

Lemma submit_cases (order : set_order) (repr : pystr -> pystr)
    (io : write_outcome)
                   (timestamp : pystr) (A : pydict) (st : store) :
  (~ keys_match A /\
   submit_answers order repr io timestamp A st =
   (Return (JSONResponse 400
              (Error (missing_message
                        (iterate order (set_diff question_ids (keys A)))))),
    st)) \/
  (keys_match A /\ ~ values_valid A /\
   exists q,
     submit_answers order repr io timestamp A st =
     (Return (JSONResponse 400 (Error (invalid_message q))), st)) \/
  (keys_match A /\ values_valid A /\ io = WriteOk /\
   submit_answers order repr io timestamp A st =
   (Return (JSONResponse 200 (Success timestamp A)),
    Content (record_header timestamp ++ blocks A))) \/
  (keys_match A /\ values_valid A /\
   exists e left_behind,
     io = WriteFails e left_behind /\
     submit_answers order repr io timestamp A st =
     (Return (JSONResponse 500 (Error (save_failed_message repr e))),
      left_behind)).
Proof.
  unfold submit_answers.
  destruct (set_eqb question_ids (keys A)) eqn:E; cbn [negb].
  - apply keys_match_set_eqb in E.
    destruct (first_invalid_cases A) as
      [[Hf Hv] | (b & q & a & e & af & EA & Hb & He & Hn & Hf)].
    + intros q Hq. apply E, Hq.
    + right. right. rewrite Hf.
      destruct io as [|e left_behind].
      * left. rewrite write_blocks_ok by (apply valid_items_ok; exact Hv).
        split; [exact E|]. split; [exact Hv|]. split; reflexivity.
      * right. split; [exact E|]. split; [exact Hv|].
        exists e, left_behind. split; reflexivity.
    + right. left. rewrite Hf. split; [exact E|]. split; [|eauto].
      intros Hv. destruct (Hv q a) as (e' & He' & Ha).
      * rewrite EA. apply in_or_app. right. left. reflexivity.
      * congruence.
  - left. split; [|reflexivity].
    intros Hk. apply keys_match_set_eqb in Hk. congruence.
Qed.

(** X7. The handler always answers: whatever is submitted and whatever the
    write does, it returns a response and does not raise (the lookups
    [QUESTIONS[question_id]] are guarded by the comparison of the key sets);
    the status is 200 only when the write went through, 400, or 500 only
    when the write failed. *)
Theorem submit_always_responds (order : set_order) (repr : pystr -> pystr)
    (io : write_outcome)
                               (timestamp : pystr) (A : pydict)
                               (st : store) :
  exists code c,
    fst (submit_answers order repr io timestamp A st)
    = Return (JSONResponse code c) /\
    ((code = 200 /\ io = WriteOk) \/ code = 400 \/
     (code = 500 /\ exists e left_behind, io = WriteFails e left_behind)).
Proof.
  destruct (submit_cases order repr io timestamp A st) as
    [[_ H] | [(_ & _ & q & H) | [(_ & _ & Hio & H)
                                | (_ & _ & e & l & Hio & H)]]];
    rewrite H; cbn [fst]; eexists; eexists; (split; [reflexivity|]); eauto 6.
Qed.

(** X8. A rejected submission leaves the file as it was: when the response
    has status 400, nothing has been written. *)
Theorem rejection_keeps_file (order : set_order) (repr : pystr -> pystr)
    (io : write_outcome)
                             (timestamp : pystr) (A : pydict) (st : store)
                             (c : content) :
  fst (submit_answers order repr io timestamp A st)
    = Return (JSONResponse 400 c) ->
  snd (submit_answers order repr io timestamp A st) = st.
Proof.
  destruct (submit_cases order repr io timestamp A st) as
    [[_ H] | [(_ & _ & q & H) | [(_ & _ & Hio & H)
                                | (_ & _ & e & l & Hio & H)]]];
    rewrite H; cbn [fst snd]; intros H4; try reflexivity; discriminate H4.
Qed.

Lemma rejection_keeps_file_witness :
  snd (submit_answers sample_order plain_repr WriteOk other_time
         [(str "Q1", str "Submitted on time (solid responsible energy)")]
         (Content (record_header sample_time ++ blocks sample_answers)))
  = Content (record_header sample_time ++ blocks sample_answers).
Proof.
  apply (rejection_keeps_file sample_order plain_repr WriteOk other_time
           [(str "Q1", str "Submitted on time (solid responsible energy)")]
           (Content (record_header sample_time ++ blocks sample_answers))
           (Error (str "Missing answers for questions: Q3, Q4, Q2"))).
  vm_compute. reflexivity.
Defined.

(** X9. Only valid answers are accepted and written: when the response has
    status 200, the submitted key set is that of the catalogue, every answer
    is an option of its question, the response carries the timestamp and the
    submitted mapping, and the file holds the record of this submission. *)
Theorem accepted_only_if_valid (order : set_order) (repr : pystr -> pystr)
    (io : write_outcome)
                               (timestamp : pystr) (A : pydict) (st : store)
                               (c : content) :
  fst (submit_answers order repr io timestamp A st)
    = Return (JSONResponse 200 c) ->
  keys_match A /\ values_valid A /\ io = WriteOk /\
  c = Success timestamp A /\
  snd (submit_answers order repr io timestamp A st)
  = Content (record_header timestamp ++ blocks A).
Proof.
  destruct (submit_cases order repr io timestamp A st) as
    [[_ H] | [(_ & _ & q & H) | [(Hk & Hv & Hio & H)
                                | (_ & _ & e & l & Hio & H)]]];
    rewrite H; cbn [fst snd]; intros H2; try discriminate H2.
  injection H2 as <-. auto.
Qed.

Lemma accepted_only_if_valid_witness :
  keys_match sample_answers /\ values_valid sample_answers /\
  WriteOk = WriteOk /\
  Success sample_time sample_answers = Success sample_time sample_answers /\
  snd (submit_answers sample_order plain_repr
        WriteOk sample_time sample_answers Absent)
  = Content (record_header sample_time ++ blocks sample_answers).
Proof.
  apply (accepted_only_if_valid sample_order plain_repr
        WriteOk sample_time sample_answers
                                Absent).
  vm_compute. reflexivity.
Defined.

(** ** From the questionnaire to a submission *)

Lemma In_entry_get (q : pystr) (e : question_entry)
                   (cat : list (pystr * question_entry)) :
  NoDup (map fst cat) -> In (q, e) cat -> entry_get q cat = Some e.
Proof.
  induction cat as [|[k x] cat IH]; intros Hn Hin; [destruct Hin|].
  simpl in Hn. inversion Hn as [|? ? Hk Hn']; subst. cbn [entry_get].
  destruct Hin as [H | H].
  - inversion H; subst. rewrite str_eqb_refl. reflexivity.
  - destruct (str_eqb q k) eqn:E; [|apply IH; assumption].
    apply str_eqb_eq in E. subst k. exfalso. apply Hk.
    apply (in_map fst) in H. exact H.
Qed.

Lemma answer_all_keys (pick : pystr -> question_entry -> pystr) :
  keys (answer_all pick) = question_ids.
Proof.
  unfold keys, answer_all, question_ids, get_questions. cbn [questions].
  rewrite map_map. apply map_ext. intros [q e]. reflexivity.
Qed.

(** X10. The questionnaire and the validation agree: a client that answers
    every question listed by [get_questions], in the order listed, each with
    one of the options listed for it, sends a valid submission, and the
    handler accepts it. *)
Theorem listed_options_accepted (pick : pystr -> question_entry -> pystr) :
  (forall q e, In (q, e) (questions get_questions) ->
               In (pick q e) (options e)) ->
  valid_submission (answer_all pick) /\
  forall order repr timestamp st,
    fst (submit_answers order repr WriteOk timestamp (answer_all pick) st)
    = Return (JSONResponse 200 (Success timestamp (answer_all pick))).
Proof.
  intros Hpick.
  assert (V : valid_submission (answer_all pick)).
  { split; [|split].
    - unfold wf_dict. rewrite answer_all_keys. exact question_ids_NoDup.
    - intros q. rewrite answer_all_keys. reflexivity.
    - intros q a Hin. unfold answer_all in Hin.
      apply in_map_iff in Hin as ([q' e] & E & Hin). inversion E; subst.
      exists e. split; [|apply Hpick; exact Hin].
      apply In_entry_get; [exact question_ids_NoDup | exact Hin]. }
  split; [exact V|]. intros order repr timestamp st.
  rewrite submit_valid by exact V. reflexivity.
Qed.

Lemma listed_options_accepted_witness :
  valid_submission (answer_all first_option) /\
  forall order repr timestamp st,
    fst (submit_answers order repr WriteOk timestamp
            (answer_all first_option) st)
    = Return (JSONResponse 200 (Success timestamp (answer_all first_option))).
Proof.
  apply (listed_options_accepted first_option).
  intros q e [H | [H | [H | [H | []]]]]; injection H as _ <-;
    left; reflexivity.
Defined.

(** ** The summary and the prompts, from the file *)

Lemma dict_get_Some (k : pystr) (d : pydict) :
  In k (keys d) -> exists v, dict_get k d = Some v.
Proof.
  induction d as [|[k' v'] d IH]; simpl; [tauto|].
  intros [<- | H].
  - rewrite str_eqb_refl. eauto.
  - destruct (str_eqb k k'); eauto.
Qed.

Lemma bullets_all_present (d : pydict) (qids : list pystr) :
  (forall q, In q qids -> In q (keys d)) ->
  exists answers,
    Forall2 (fun q a => dict_get q d = Some a) qids answers /\
    flat_map (fun q => match dict_get q d with
                       | Some a => [str "- " ++ a]
                       | None => []
                       end) qids
    = map (fun a => str "- " ++ a) answers.
Proof.
  induction qids as [|q qids IH]; intros H.
  - exists []. split; [constructor|reflexivity].
  - destruct IH as (answers & HF & E); [intros q' Hq'; apply H; right; auto|].
    destruct (dict_get_Some q d) as [a Ha]; [apply H; left; reflexivity|].
    exists (a :: answers). split; [constructor; assumption|].
    cbn [flat_map map]. rewrite Ha, E. reflexivity.
Qed.

Lemma summarize_flat (kv : pystr * pystr) (d : pydict) :
  summarize (Some (kv :: d)) =
  join nl (summary_header
           :: flat_map (fun q => match dict_get q (kv :: d) with
                                 | Some a => [str "- " ++ a]
                                 | None => []
                                 end) question_ids
           ++ [summary_footer]).
Proof.
  unfold summarize. rewrite append_behavior_flat, <- app_assoc. reflexivity.
Qed.

Lemma summarize_not_nil (kv : pystr * pystr) (d : pydict) :
  exists s, summarize (Some (kv :: d)) = 10%N :: s.
Proof.
  rewrite summarize_flat. rewrite join_cons.
  - eexists. reflexivity.
  - intros H. apply app_eq_nil in H as [_ H]. discriminate H.
Qed.

(** X11. The summary after a submission: once a valid submission has been
    written, the summary is the header, then exactly one bullet for each
    question of the catalogue, in the order of the catalogue and with the
    answer submitted for it, whatever the order of the submission, then the
    instruction. *)
Theorem summary_after_submit (order : set_order) (repr : pystr -> pystr)
    (A : pydict)
                             (timestamp : pystr) (st : store) :
  valid_submission A ->
  exists answers,
    Forall2 (fun q a => dict_get q A = Some a) question_ids answers /\
    build_behavior_summary
      (snd (submit_answers order repr WriteOk timestamp A st))
    = Return (join nl ([summary_header]
                       ++ map (fun a => str "- " ++ a) answers
                       ++ [summary_footer])).
Proof.
  intros HA. rewrite submit_valid by exact HA. cbn [snd].
  unfold build_behavior_summary. rewrite read_valid by exact HA. cbn [bind].
  destruct HA as (_ & Hk & _).
  destruct (bullets_all_present A question_ids) as (answers & HF & E);
    [intros q Hq; apply Hk, Hq|].
  exists answers. split; [exact HF|].
  destruct A as [|kv A]; [exfalso; exact (valid_not_nil [] Hk eq_refl)|].
  rewrite summarize_flat, E. reflexivity.
Qed.

Lemma summary_after_submit_witness :
  exists answers,
    Forall2 (fun q a => dict_get q sample_answers = Some a)
            question_ids answers /\
    build_behavior_summary
      (snd (submit_answers sample_order plain_repr
            WriteOk sample_time sample_answers
                           Absent))
    = Return (join nl ([summary_header]
                       ++ map (fun a => str "- " ++ a) answers
                       ++ [summary_footer])).
Proof.
  apply (summary_after_submit sample_order plain_repr
        sample_answers sample_time Absent).
  apply valid_submissionb_spec. vm_compute. reflexivity.
Defined.

(** X12. The summary looks only at the ids of the catalogue: two non-empty
    mappings that agree on every id of the catalogue have the same summary,
    whatever their order and whatever other ids they hold. *)
Theorem summary_catalog_ids_only (d d' : pydict) :
  d <> [] -> d' <> [] ->
  (forall q, In q question_ids -> dict_get q d = dict_get q d') ->
  summarize (Some d) = summarize (Some d').
Proof.
  intros Hd Hd' H.
  destruct d as [|kv d]; [congruence|].
  destruct d' as [|kv' d']; [congruence|].
  rewrite !summarize_flat. do 3 f_equal.
  revert H. generalize (kv :: d) (kv' :: d'). generalize question_ids.
  induction l as [|q l IH]; intros a b H; [reflexivity|].
  cbn [flat_map]. rewrite (H q (or_introl eq_refl)). f_equal.
  apply IH. intros q' Hq'. apply H. right. exact Hq'.
Qed.

Lemma summary_catalog_ids_only_witness :
  summarize (Some sample_answers) = summarize (Some sample_reordered).
Proof.
  apply (summary_catalog_ids_only sample_answers sample_reordered).
  - discriminate.
  - discriminate.
  - intros q [<- | [<- | [<- | [<- | []]]]]; vm_compute; reflexivity.
Defined.

Lemma read_not_nil (st : store) (d : pydict) :
  get_latest_student_responses st = Return (Some d) -> d <> [].
Proof.
  destruct st as [|e|text]; unfold get_latest_student_responses; simpl.
  - discriminate.
  - destruct e; discriminate.
  - intros H. injection H as H.
    apply scan_Some_section in H as (_ & _ & _ & Hne). exact Hne.
Qed.

(** What the reader returns, and whether its summary is empty. *)
Lemma summary_parts (st : store) :
  exists r,
    get_latest_student_responses st = Return r /\
    match r with
    | Some d => exists c s, summarize (Some d) = c :: s
    | None => summarize None = []
    end.
Proof.
  destruct (reader_returns st) as [[d|] Hr].
  - exists (Some d). split; [exact Hr|].
    destruct d as [|kv d]; [exfalso; exact (read_not_nil st [] Hr eq_refl)|].
    destruct (summarize_not_nil kv d) as [s Hs]. eauto.
  - exists None. split; [exact Hr | reflexivity].
Qed.

(** X13. The summary is empty exactly when there is no record: for every
    state of the file the summary is returned (nothing is raised), and it is
    the empty string if and only if the reader found nothing. *)
Theorem summary_empty_iff_no_record (st : store) :
  exists s,
    build_behavior_summary st = Return s /\
    (s = [] <-> get_latest_student_responses st = Return None).
Proof.
  unfold build_behavior_summary.
  destruct (reader_returns st) as [[d|] Hr]; rewrite Hr; cbn [bind].
  - exists (summarize (Some d)). split; [reflexivity|].
    assert (Hne : d <> []) by exact (read_not_nil st d Hr).
    destruct d as [|kv d]; [congruence|].
    destruct (summarize_not_nil kv d) as [s Hs].
    split; [|discriminate].
    intros H0. pose proof (eq_trans (eq_sym Hs) H0) as X. discriminate X.
  - exists []. split; [reflexivity|]. split; reflexivity.
Qed.

(** X14. The prompt a chat handler sends, from the file: the handler calls
    the model once, with the model name [gpt-4o-mini], and returns its
    outcome as it is; the system message is the description of the persona
    when the reader finds no record, and the description followed by the
    summary of the record and by the steering clause of the persona when it
    finds one; then come the example exchange of the persona and the
    message of the request. *)
Theorem chat_prompt_from_store (create : pystr -> list message -> py pystr)
                               (p : persona) (st : store)
                               (req_message : pystr) :
  exists r,
    get_latest_student_responses st = Return r /\
    chat create p st req_message =
    create (str "gpt-4o-mini")
      [ {| msg_role := system;
           msg_content :=
             match r with
             | None => description p
             | Some d => description p ++ summarize (Some d) ++ steering p
             end |};
        {| msg_role := user; msg_content := example_in p |};
        {| msg_role := assistant; msg_content := example_out p |};
        {| msg_role := user; msg_content := req_message |} ].
Proof.
  destruct (summary_parts st) as (r & Hr & Hs).
  exists r. split; [exact Hr|].
  unfold chat, build_behavior_summary. rewrite Hr. cbn [bind].
  destruct r as [d|].
  - destruct Hs as (c & s & Hs). rewrite Hs.
    destruct p; reflexivity.
  - rewrite Hs. destruct p; reflexivity.
Qed.

(** ** Edges of the validation and of the summary *)

Lemma set_diff_nil (a b : list pystr) :
  (forall x, In x a -> In x b) -> set_diff a b = [].
Proof.
  intros H. unfold set_diff. induction a as [|x a IH]; [reflexivity|].
  cbn [filter].
  replace (str_mem x b) with true
    by (symmetry; apply str_mem_In, H; left; reflexivity).
  cbn [negb]. apply IH. intros y Hy. apply H. right. exact Hy.
Qed.

(** X15. Extra ids are rejected with an empty list: when the submission
    answers every question of the catalogue and also some id the catalogue
    does not have, it is rejected with status 400 and the message
    ["Missing answers for questions: "] with no id after it, and the file is
    left as it was. *)
Theorem extra_ids_rejected (order : set_order) (repr : pystr -> pystr)
    (io : write_outcome)
                           (timestamp : pystr) (A : pydict) (st : store)
                           (extra : pystr) :
  (forall q, In q question_ids -> In q (keys A)) ->
  In extra (keys A) -> ~ In extra question_ids ->
  submit_answers order repr io timestamp A st =
  (Return (JSONResponse 400 (Error (str "Missing answers for questions: "))),
   st).
Proof.
  intros Hall Hin Hnot. unfold submit_answers.
  destruct (set_eqb question_ids (keys A)) eqn:E.
  - exfalso. apply Hnot. apply (proj1 (set_eqb_spec _ _) E). exact Hin.
  - cbn [negb]. rewrite set_diff_nil by exact Hall.
    rewrite (Permutation_nil (Permutation_sym (iterate_perm order []))).
    unfold missing_message. cbn [join]. rewrite app_nil_r. reflexivity.
Qed.

Lemma extra_ids_rejected_witness :
  submit_answers sample_order plain_repr
        WriteOk sample_time sample_with_extra Absent =
  (Return (JSONResponse 400 (Error (str "Missing answers for questions: "))),
   Absent).
Proof.
  apply (extra_ids_rejected sample_order plain_repr
        WriteOk sample_time sample_with_extra
                            Absent (str "Q5")).
  - intros q [<- | [<- | [<- | [<- | []]]]]; vm_compute; tauto.
  - vm_compute. tauto.
  - intros [H | [H | [H | [H | []]]]]; vm_compute in H; discriminate H.
Defined.

(** X16. A record without any id of the catalogue still gives a summary: for
    a non-empty mapping that has none of the ids of the catalogue, the
    summary is the header and the instruction with no bullet between them,
    and not the empty string. *)
Theorem summary_without_bullets (d : pydict) :
  d <> [] ->
  (forall q, In q question_ids -> dict_get q d = None) ->
  summarize (Some d) = summary_header ++ nl ++ summary_footer.
Proof.
  intros Hd H. destruct d as [|kv d]; [congruence|].
  rewrite summarize_flat.
  replace (flat_map _ question_ids) with (@nil pystr); [reflexivity|].
  revert H. generalize (kv :: d). generalize question_ids.
  induction l as [|q l IH]; intros a H; [reflexivity|].
  cbn [flat_map]. rewrite (H q (or_introl eq_refl)).
  apply IH. intros q' Hq'. apply H. right. exact Hq'.
Qed.

Lemma summary_without_bullets_witness :
  summarize (Some unknown_only) = summary_header ++ nl ++ summary_footer.
Proof.
  apply (summary_without_bullets unknown_only).
  - discriminate.
  - intros q [<- | [<- | [<- | [<- | []]]]]; vm_compute; reflexivity.
Defined.

(** Such a mapping is what the reader returns for a record of a question
    the catalogue no longer has. *)
Example unknown_only_read :
  get_latest_student_responses
    (Content (record_header sample_time ++ str "Q9: An old question" ++ nl
              ++ str "Answer: something else" ++ nl ++ nl))
  = Return (Some unknown_only).
Proof. vm_compute. reflexivity. Qed.
